(** * arctic: adaptive LZ4 batch compression and asynchronous requests

    A shallow embedding of [arctic/_compression.py] and
    [arctic/async/async_utils.py], and the properties of the two modules
    that the specification states.

    Conventions of the embedding.
    - A Python exception is a value of [exn]; a call that may raise returns
      a [result].
    - [time.time()] returns a finite float; a timestamp is modelled by the
      rational it denotes and [-] by exact subtraction.  The properties below
      use only that [a <= b] gives [0 <= b - a], which the rounded float
      subtraction satisfies as well.
    - Objects that the code only stores and hands on (the library, the
      callable, its arguments, the result, the caught exception) are values
      of an arbitrary type [pyobject]. *)

From Stdlib Require Import ZArith QArith Lia Lqa.
From stdpp Require Import base option list strings gmap.

Open Scope Z_scope.

(** ** Exceptions and results *)

Inductive exn : Type :=
  | TypeError
  | ValueError
  | AttributeError
  | AssertionError
  | Lz4Error.

Inductive result (A : Type) : Type :=
  | Ok (a : A)
  | Raise (e : exn).
Arguments Ok {A} a.
Arguments Raise {A} e.

Definition raises {A : Type} (r : result A) : bool :=
  match r with Ok _ => false | Raise _ => true end.

(** ** arctic/async/async_utils.py *)

Module AsyncUtils.

Inductive AsyncRequestType : Type := MODIFIER | ACCESSOR.

Section Request.

Variable pyobject : Type.

(** The instance attributes that [AsyncRequest.__init__] binds.  [None] is
    the empty option. *)
Record AsyncRequest : Type := mkAsyncRequest {
  id : N;
  fun_ : pyobject;
  args : list pyobject;
  kwargs : gmap string pyobject;
  kind : AsyncRequestType;
  library : pyobject;
  symbol : option pyobject;
  future : option pyobject;
  data : option pyobject;
  exception : option pyobject;
  start_time : option Q;
  end_time : option Q;
  create_time : Q
}.

(** [AsyncRequest(kind, library, fun, *args, **kwargs)].  [uuid4] is the
    value [uuid.uuid4()] returns and [now] the value [time.time()] returns. *)
Definition __init__ (uuid4 : N) (now : Q) (kind : AsyncRequestType)
    (library fn : pyobject) (args : list pyobject)
    (kwargs : gmap string pyobject) : AsyncRequest :=
  {| id := uuid4;
     fun_ := fn;
     args := args;
     kwargs := kwargs;
     kind := kind;
     library := library;
     symbol := kwargs !! "symbol"%string;
     future := None;
     data := None;
     exception := None;
     start_time := None;
     end_time := None;
     create_time := now |}.

(** [float - None] raises [TypeError]. *)
Definition sub_opt (a : Q) (b : option Q) : result Q :=
  match b with
  | Some b => Ok (a - b)%Q
  | None => Raise TypeError
  end.

Definition execution_duration (self : AsyncRequest) : result Q :=
  match end_time self with
  | Some e => sub_opt e (start_time self)
  | None => Ok (-1)%Q
  end.

Definition schedule_delay (self : AsyncRequest) : result Q :=
  match start_time self with
  | Some s => Ok (s - create_time self)%Q
  | None => Ok (-1)%Q
  end.

Definition total_time (self : AsyncRequest) : result Q :=
  match end_time self with
  | Some e => Ok (e - create_time self)%Q
  | None => Ok (-1)%Q
  end.

Definition is_completed (self : AsyncRequest) : bool :=
  match end_time self with
  | Some _ => true
  | None => false
  end.

(** The names the class body binds with [@property] (lines 35-49).  None of
    them has a setter, so an assignment to one of them raises
    [AttributeError].  The class has no [__slots__] and no [__setattr__]:
    every other name is a plain instance attribute, and an assignment to it
    rebinds it whatever the attributes hold at that moment. *)
Definition properties : list string :=
  ["execution_duration"; "schedule_delay"; "total_time"; "is_completed"]%string.

(** [self.name = ...], where [updated] is [self] with the attribute
    rebound. *)
Definition assign (name : string) (updated : AsyncRequest) : result AsyncRequest :=
  if existsb (String.eqb name) properties then Raise AttributeError else Ok updated.

(** [self.start_time = t]. *)
Definition store_start_time (t : Q) (self : AsyncRequest) : result AsyncRequest :=
  assign "start_time"
    {| id := id self; fun_ := fun_ self; args := args self;
       kwargs := kwargs self; kind := kind self; library := library self;
       symbol := symbol self; future := future self; data := data self;
       exception := exception self;
       start_time := Some t;
       end_time := end_time self; create_time := create_time self |}.

(** [self.end_time = t]. *)
Definition store_end_time (t : Q) (self : AsyncRequest) : result AsyncRequest :=
  assign "end_time"
    {| id := id self; fun_ := fun_ self; args := args self;
       kwargs := kwargs self; kind := kind self; library := library self;
       symbol := symbol self; future := future self; data := data self;
       exception := exception self;
       start_time := start_time self;
       end_time := Some t;
       create_time := create_time self |}.

(** [self.data = x]. *)
Definition store_data (x : pyobject) (self : AsyncRequest) : result AsyncRequest :=
  assign "data"
    {| id := id self; fun_ := fun_ self; args := args self;
       kwargs := kwargs self; kind := kind self; library := library self;
       symbol := symbol self; future := future self;
       data := Some x;
       exception := exception self;
       start_time := start_time self; end_time := end_time self;
       create_time := create_time self |}.

(** [self.exception = x]. *)
Definition store_exception (x : pyobject) (self : AsyncRequest) : result AsyncRequest :=
  assign "exception"
    {| id := id self; fun_ := fun_ self; args := args self;
       kwargs := kwargs self; kind := kind self; library := library self;
       symbol := symbol self; future := future self; data := data self;
       exception := Some x;
       start_time := start_time self; end_time := end_time self;
       create_time := create_time self |}.

(** [self.is_completed = b]: the name is a property. *)
Definition store_is_completed (b : bool) (self : AsyncRequest) : result AsyncRequest :=
  assign "is_completed" self.

(** Sequencing of calls that may raise. *)
Definition and_then {A B : Type} (r : result A) (k : A -> result B) : result B :=
  match r with
  | Ok a => k a
  | Raise e => Raise e
  end.

End Request.

Arguments mkAsyncRequest {pyobject}.
Arguments id {pyobject} _.
Arguments fun_ {pyobject} _.
Arguments args {pyobject} _.
Arguments kwargs {pyobject} _.
Arguments kind {pyobject} _.
Arguments library {pyobject} _.
Arguments symbol {pyobject} _.
Arguments future {pyobject} _.
Arguments data {pyobject} _.
Arguments exception {pyobject} _.
Arguments start_time {pyobject} _.
Arguments end_time {pyobject} _.
Arguments create_time {pyobject} _.
Arguments __init__ {pyobject}.
Arguments execution_duration {pyobject} self.
Arguments schedule_delay {pyobject} self.
Arguments total_time {pyobject} self.
Arguments is_completed {pyobject} self.
Arguments store_start_time {pyobject} t self.
Arguments store_end_time {pyobject} t self.
Arguments store_data {pyobject} x self.
Arguments store_exception {pyobject} x self.
Arguments store_is_completed {pyobject} b self.

(** The accessor returned a number equal to the sentinel. *)
Definition returns_sentinel (x : result Q) : Prop :=
  match x with
  | Ok q => (q == -1)%Q
  | Raise _ => False
  end.

(** The life cycle of a request: [start_time] is assigned before [end_time],
    and the clock does not go back between creation, start and end. *)
Definition lifecycle_ok {pyobject : Type} (r : AsyncRequest pyobject) : Prop :=
  match start_time r, end_time r with
  | None, None => True
  | Some s, None => (create_time r <= s)%Q
  | Some s, Some e => (create_time r <= s)%Q /\ (s <= e)%Q
  | None, Some _ => False
  end.

End AsyncUtils.

(** ** arctic/_compression.py *)

Module Compression.

(** A chunk is a Python byte string. *)
Definition block : Type := list Byte.byte.

Definition len {A : Type} (l : list A) : Z := Z.of_nat (length l).

(** The three functions imported from [lz4]. *)
Inductive transform : Type := lz4_compress | lz4_compressHC | lz4_decompress.

(** The [lz4] package is an external library: a codec says, for each of the
    three functions, what it returns on a chunk; [None] stands for the call
    raising the library's error. *)
Class Lz4 : Type := run : transform -> block -> option block.

(** Objects that [_compress_thread_pool] and [_get_compression_pool()] may
    hold: the coordinator [ASYNC_ARCTIC], its attribute
    [ASYNC_ARCTIC._workers_pool], and the [ThreadPool] objects this module
    creates, named by their creation index. *)
Inductive pyobj : Type :=
  | ASYNC_ARCTIC
  | ASYNC_ARCTIC_workers_pool
  | ThreadPool (id : nat).

(** A [multiprocessing.pool.ThreadPool]: the number of workers it was
    created with, whether it still accepts work ([_state == RUN]) and
    whether its workers have been joined. *)
Record thread_pool : Type := mkThreadPool {
  processes : Z;
  running : bool;
  joined : bool
}.

Inductive log_record : Type :=
  | error_failed_to_shut_down
  | info_using_common_async_pool
  | info_using_separate_pool (size : Z)
  | warn_cant_set_pool_size
  | info_parallelization_mode (multithread : bool).

(** What a call does besides changing the module's state: log records,
    calls of [_get_compression_pool()], [map] calls on a pool, and calls of
    a transform on the calling thread. *)
Inductive event : Type :=
  | Log (r : log_record)
  | GetPool
  | PoolMap (p : pyobj) (t : transform) (items : list block)
  | Call (t : transform) (item : block).

(** The module's globals and the [ThreadPool] objects created so far.  The
    numeric globals hold numbers; their defaults are 2, 16 and
    0.5 * 1024 ** 2 = 524288. *)
Record world : Type := mkWorld {
  ENABLE_PARALLEL : bool;
  LZ4_USE_ASYNC_POOL : bool;
  LZ4_WORKERS : Z;
  LZ4_N_PARALLEL : Z;
  LZ4_MINSZ_PARALLEL : Z;
  BENCHMARK_MODE : bool;
  _compress_thread_pool : option pyobj;
  heap : list thread_pool
}.

Definition with_ENABLE_PARALLEL (b : bool) (w : world) : world :=
  mkWorld b (LZ4_USE_ASYNC_POOL w) (LZ4_WORKERS w) (LZ4_N_PARALLEL w)
    (LZ4_MINSZ_PARALLEL w) (BENCHMARK_MODE w) (_compress_thread_pool w) (heap w).

Definition with_LZ4_USE_ASYNC_POOL (b : bool) (w : world) : world :=
  mkWorld (ENABLE_PARALLEL w) b (LZ4_WORKERS w) (LZ4_N_PARALLEL w)
    (LZ4_MINSZ_PARALLEL w) (BENCHMARK_MODE w) (_compress_thread_pool w) (heap w).

Definition with_LZ4_WORKERS (n : Z) (w : world) : world :=
  mkWorld (ENABLE_PARALLEL w) (LZ4_USE_ASYNC_POOL w) n (LZ4_N_PARALLEL w)
    (LZ4_MINSZ_PARALLEL w) (BENCHMARK_MODE w) (_compress_thread_pool w) (heap w).

Definition with_compress_thread_pool (p : option pyobj) (w : world) : world :=
  mkWorld (ENABLE_PARALLEL w) (LZ4_USE_ASYNC_POOL w) (LZ4_WORKERS w)
    (LZ4_N_PARALLEL w) (LZ4_MINSZ_PARALLEL w) (BENCHMARK_MODE w) p (heap w).

Definition with_heap (h : list thread_pool) (w : world) : world :=
  mkWorld (ENABLE_PARALLEL w) (LZ4_USE_ASYNC_POOL w) (LZ4_WORKERS w)
    (LZ4_N_PARALLEL w) (LZ4_MINSZ_PARALLEL w) (BENCHMARK_MODE w)
    (_compress_thread_pool w) h.

(** *** Computations over the module's state *)

Record outcome (A : Type) : Type := mkOutcome {
  res : result A;
  final : world;
  events : list event
}.
Arguments mkOutcome {A}.
Arguments res {A} _.
Arguments final {A} _.
Arguments events {A} _.

Definition M (A : Type) : Type := world -> outcome A.

Definition ret {A : Type} (a : A) : M A :=
  fun w => mkOutcome (Ok a) w [].

Definition raise {A : Type} (e : exn) : M A :=
  fun w => mkOutcome (Raise e) w [].

Definition bind {A B : Type} (m : M A) (k : A -> M B) : M B :=
  fun w =>
    let o := m w in
    match res o with
    | Ok a =>
        let o' := k a (final o) in
        mkOutcome (res o') (final o') (events o ++ events o')
    | Raise e => mkOutcome (Raise e) (final o) (events o)
    end.

(** [try: m except Exception: h]; every [exn] is an [Exception]. *)
Definition try_except {A : Type} (m : M A) (h : M A) : M A :=
  fun w =>
    let o := m w in
    match res o with
    | Ok a => o
    | Raise _ =>
        let o' := h (final o) in
        mkOutcome (res o') (final o') (events o ++ events o')
    end.

Definition get : M world := fun w => mkOutcome (Ok w) w [].
Definition modify (f : world -> world) : M unit :=
  fun w => mkOutcome (Ok tt) (f w) [].
Definition emit (e : event) : M unit :=
  fun w => mkOutcome (Ok tt) w [e].

Declare Scope py_scope.
Delimit Scope py_scope with py.
Notation "x <- m ;; k" := (bind m (fun x => k))
  (at level 100, m at next level, right associativity) : py_scope.
Notation "m ;; k" := (bind m (fun _ => k))
  (at level 100, right associativity) : py_scope.
Open Scope py_scope.

(** *** multiprocessing.pool.ThreadPool *)

(** [ThreadPool(n)]: a pool of fewer than one worker is refused. *)
Definition ThreadPool_new (n : Z) : M pyobj :=
  fun w =>
    if n <? 1 then mkOutcome (Raise ValueError) w []
    else mkOutcome (Ok (ThreadPool (length (heap w))))
           (with_heap (heap w ++ [mkThreadPool n true false]) w) [].

(** Modelled from the spec: [ASYNC_ARCTIC], the coordinator defined in
    [arctic/async/async_arctic.py], and its attribute [_workers_pool].  The
    shared pool is consumed only as an object that maps a function over a
    sequence on a worker set, with the output order preserved, and its
    start and stop belong to the collaborator: [map] is taken to exist on
    [ASYNC_ARCTIC._workers_pool] and no pool method on [ASYNC_ARCTIC]
    itself.  A [ThreadPool] has no attribute [_workers_pool]. *)
Definition _workers_pool (p : pyobj) : M pyobj :=
  match p with
  | ASYNC_ARCTIC => ret ASYNC_ARCTIC_workers_pool
  | ASYNC_ARCTIC_workers_pool | ThreadPool _ => raise AttributeError
  end.

(** [p.close()]: a running pool stops accepting work; on a pool that is
    closed already nothing changes.  A [ThreadPool id] outside the heap does
    not occur in a state the module reaches. *)
Definition close (p : pyobj) : M unit :=
  fun w =>
    match p with
    | ThreadPool id =>
        match heap w !! id with
        | Some tp =>
            mkOutcome (Ok tt)
              (with_heap (<[id := mkThreadPool (processes tp) false (joined tp)]> (heap w)) w) []
        | None => mkOutcome (Raise AttributeError) w []
        end
    | ASYNC_ARCTIC | ASYNC_ARCTIC_workers_pool => mkOutcome (Raise AttributeError) w []
    end.

(** [p.join()]: asserts that the pool is not running, then waits for its
    workers to exit. *)
Definition join (p : pyobj) : M unit :=
  fun w =>
    match p with
    | ThreadPool id =>
        match heap w !! id with
        | Some tp =>
            if running tp then mkOutcome (Raise AssertionError) w []
            else mkOutcome (Ok tt)
                   (with_heap (<[id := mkThreadPool (processes tp) false true]> (heap w)) w) []
        | None => mkOutcome (Raise AttributeError) w []
        end
    | ASYNC_ARCTIC | ASYNC_ARCTIC_workers_pool => mkOutcome (Raise AttributeError) w []
    end.

Section Codec.

Context `{codec : Lz4}.

(** What a transform returns on every chunk of a list, index by index, or
    the library's error when it raises on one of them. *)
Definition results (f : transform) (l : list block) : result (list block) :=
  match mapM (run f) l with
  | Some out => Ok out
  | None => Raise Lz4Error
  end.

(** [p.map(f, l)]: the workers of [p] apply [f] to every chunk; the call
    returns the results in input order, or raises.  A pool that has been
    closed asserts. *)
Definition map_ (p : pyobj) (f : transform) (l : list block) : M (list block) :=
  fun w =>
    let served := mkOutcome (results f l) w [PoolMap p f l] in
    match p with
    | ThreadPool id =>
        match heap w !! id with
        | Some tp =>
            if running tp then served else mkOutcome (Raise AssertionError) w []
        | None => mkOutcome (Raise AttributeError) w []
        end
    | ASYNC_ARCTIC_workers_pool => served
    | ASYNC_ARCTIC => mkOutcome (Raise AttributeError) w []
    end.

(** [f(s)] on the calling thread. *)
Definition call (f : transform) (s : block) : M block :=
  fun w =>
    mkOutcome (match run f s with Some y => Ok y | None => Raise Lz4Error end)
      w [Call f s].

(** [[f(s) for s in l]]. *)
Fixpoint comprehension (f : transform) (l : list block) : M (list block) :=
  match l with
  | [] => ret []
  | s :: l' =>
      y <- call f s ;;
      ys <- comprehension f l' ;;
      ret (y :: ys)
  end.

(** *** The module's functions *)

Definition _init_thread_pool (use_async_pool : option bool) (pool_size : option Z)
    : M unit :=
  w <- get ;;
  let use_async_pool := default (LZ4_USE_ASYNC_POOL w) use_async_pool in
  let pool_size := default (LZ4_WORKERS w) pool_size in
  match _compress_thread_pool w with
  | Some p =>
      if negb (LZ4_USE_ASYNC_POOL w)
      then try_except (close p ;; join p) (emit (Log error_failed_to_shut_down))
      else ret tt
  | None => ret tt
  end ;;
  if use_async_pool then
    emit (Log info_using_common_async_pool) ;;
    modify (with_compress_thread_pool (Some ASYNC_ARCTIC)) ;;
    modify (with_LZ4_USE_ASYNC_POOL use_async_pool)
  else
    emit (Log (info_using_separate_pool (LZ4_WORKERS w))) ;;
    p <- ThreadPool_new (LZ4_WORKERS w) ;;
    modify (with_compress_thread_pool (Some p)) ;;
    modify (with_LZ4_WORKERS pool_size).

(** When [_init_thread_pool()] returns, [_compress_thread_pool] is bound;
    were it [None], the attribute access, or the caller's [map], would raise
    [AttributeError]. *)
Definition _get_compression_pool : M pyobj :=
  emit GetPool ;;
  w <- get ;;
  match _compress_thread_pool w with
  | None => _init_thread_pool None None
  | Some _ => ret tt
  end ;;
  w <- get ;;
  match _compress_thread_pool w with
  | Some p => if LZ4_USE_ASYNC_POOL w then _workers_pool p else ret p
  | None => raise AttributeError
  end.

Definition enable_parallel_lz4 (mode : bool) : M unit :=
  modify (with_ENABLE_PARALLEL mode) ;;
  emit (Log (info_parallelization_mode mode)).

(** An argument of [set_compression_pool_size]: an integer, [None], or any
    other object, given by what [int()] does on it: it returns an integer,
    as on ['4'] or on [2.7], or it raises, [ValueError] on ['abc']. *)
Inductive pyarg : Type :=
  | PyInt (z : Z)
  | PyNone
  | PyObject (conversion : result Z).

Definition int (v : pyarg) : M Z :=
  match v with
  | PyInt z => ret z
  | PyNone => raise TypeError
  | PyObject (Ok z) => ret z
  | PyObject (Raise e) => raise e
  end.

Definition set_compression_pool_size (pool_size : pyarg) : M unit :=
  w <- get ;;
  if LZ4_USE_ASYNC_POOL w then emit (Log warn_cant_set_pool_size)
  else
    pool_size <- int pool_size ;;
    if pool_size <? 1 then raise ValueError
    else if LZ4_WORKERS w =? pool_size then ret tt
    else _init_thread_pool None (Some pool_size).

Definition set_use_async_pool (use_async_pool : bool) : M unit :=
  w <- get ;;
  if Bool.eqb (LZ4_USE_ASYNC_POOL w) use_async_pool then ret tt
  else _init_thread_pool (Some use_async_pool) None.

(** [withHC] defaults to the value [LZ4_HIGH_COMPRESSION] had when the
    module was loaded; here it is always passed. *)
Definition compress_array (str_list : list block) (withHC : bool) : M (list block) :=
  match str_list with
  | [] => ret str_list
  | s0 :: _ =>
      let do_compress := if withHC then lz4_compressHC else lz4_compress in
      w <- get ;;
      let use_parallel :=
        (ENABLE_PARALLEL w && withHC)
        || ((LZ4_N_PARALLEL w <? len str_list) && (LZ4_MINSZ_PARALLEL w <? len s0)) in
      if BENCHMARK_MODE w || use_parallel then
        pool <- _get_compression_pool ;;
        map_ pool do_compress str_list
      else comprehension do_compress str_list
  end.

Definition compress (_str : block) : M block := call lz4_compress _str.

Definition compressHC (_str : block) : M block := call lz4_compressHC _str.

Definition compressHC_array (str_list : list block) : M (list block) :=
  compress_array str_list true.

Definition decompress (_str : block) : M block := call lz4_decompress _str.

Definition decompress_array (str_list : list block) : M (list block) :=
  match str_list with
  | [] => ret str_list
  | _ :: _ =>
      w <- get ;;
      if negb (ENABLE_PARALLEL w) || (len str_list <=? LZ4_N_PARALLEL w) then
        comprehension lz4_decompress str_list
      else
        pool <- _get_compression_pool ;;
        map_ pool lz4_decompress str_list
  end.

End Codec.

End Compression.

(** ** Concrete inputs *)

Module Samples.

Import AsyncUtils Compression.

(** A request as [AsyncRequest(ACCESSOR, lib, read)] creates it at time 100;
    opaque objects are named by strings. *)
Definition fresh_request : AsyncRequest string :=
  __init__ 1%N 100%Q ACCESSOR "lib"%string "read"%string [] ∅.

(** The same request once [start_time] has been assigned. *)
Definition started_request : AsyncRequest string :=
  mkAsyncRequest 1%N "read"%string [] ∅ ACCESSOR "lib"%string None None None None
    (Some 101%Q) None 100%Q.

(** [end_time] assigned, [start_time] never. *)
Definition ended_unstarted_request : AsyncRequest string :=
  mkAsyncRequest 1%N "read"%string [] ∅ ACCESSOR "lib"%string None None None None
    None (Some 105%Q) 100%Q.

(** Started at 101, ended at 105. *)
Definition completed_request : AsyncRequest string :=
  mkAsyncRequest 1%N "read"%string [] ∅ ACCESSOR "lib"%string None None None None
    (Some 101%Q) (Some 105%Q) 100%Q.

(** Timestamps out of order: ended one second before it started. *)
Definition backwards_request : AsyncRequest string :=
  mkAsyncRequest 1%N "read"%string [] ∅ ACCESSOR "lib"%string None None None None
    (Some 101%Q) (Some 100%Q) 100%Q.

(** A codec to run the module on: compression puts a marker byte in front
    of the chunk, decompression takes it off and raises on the empty chunk. *)
Definition marker_codec : Lz4 :=
  fun f s =>
    match f with
    | lz4_compress => Some (Byte.x01 :: s)
    | lz4_compressHC => Some (Byte.x02 :: s)
    | lz4_decompress => match s with [] => None | _ :: s' => Some s' end
    end.

(** The globals as the module binds them when no environment variable is
    set, before any pool is created. *)
Definition default_world : world :=
  mkWorld true false 2 16 524288 false None [].

(** Dedicated mode with a pool of two workers in place. *)
Definition dedicated_world : world :=
  mkWorld true false 2 16 524288 false (Some (ThreadPool 0)) [mkThreadPool 2 true false].

(** Shared mode: [LZ4_USE_ASYNC_POOL] set and [ASYNC_ARCTIC] installed. *)
Definition shared_world : world :=
  mkWorld true true 2 16 524288 false (Some ASYNC_ARCTIC) [].

(** [default_world] with [BENCHMARK_MODE] enabled and parallelism disabled. *)
Definition benchmark_world : world :=
  mkWorld false false 2 16 524288 true None [].

(** [default_world] after [enable_parallel_lz4(False)]. *)
Definition parallel_off_world : world :=
  mkWorld false false 2 16 524288 false None [].

(** The state that [set_use_async_pool(True)] followed by
    [set_use_async_pool(False)] leaves from [default_world]: a [ThreadPool]
    is bound while [LZ4_USE_ASYNC_POOL] is set. *)
Definition switched_world : world :=
  mkWorld true true 2 16 524288 false (Some (ThreadPool 0)) [mkThreadPool 2 true false].

Definition tiny_block : block := [Byte.x61].

(** A chunk of 524289 bytes, one more than [LZ4_MINSZ_PARALLEL]. *)
Definition big_block : block := replicate (Z.to_nat 524289) Byte.x00.

Definition big_batch (n : nat) : list block := replicate n big_block.

End Samples.

(** ** Sequences of calls and states of the module *)

Module Api.

Import Compression.

(** A call of one of the module's public functions. *)
Inductive api_call : Type :=
  | call_enable_parallel_lz4 (mode : bool)
  | call_set_compression_pool_size (pool_size : pyarg)
  | call_set_use_async_pool (use_async_pool : bool)
  | call_compress_array (str_list : list block) (withHC : bool)
  | call_compressHC_array (str_list : list block)
  | call_decompress_array (str_list : list block)
  | call_compress (_str : block)
  | call_compressHC (_str : block)
  | call_decompress (_str : block).

Section Run.

Context `{codec : Lz4}.

(** The state a call leaves, whether it returns or raises. *)
Definition after (c : api_call) (w : world) : world :=
  match c with
  | call_enable_parallel_lz4 mode => final (enable_parallel_lz4 mode w)
  | call_set_compression_pool_size pool_size => final (set_compression_pool_size pool_size w)
  | call_set_use_async_pool use_async_pool => final (set_use_async_pool use_async_pool w)
  | call_compress_array str_list withHC => final (compress_array str_list withHC w)
  | call_compressHC_array str_list => final (compressHC_array str_list w)
  | call_decompress_array str_list => final (decompress_array str_list w)
  | call_compress s => final (compress s w)
  | call_compressHC s => final (compressHC s w)
  | call_decompress s => final (decompress s w)
  end.

(** What a call logs and does to pools and chunks. *)
Definition trace (c : api_call) (w : world) : list event :=
  match c with
  | call_enable_parallel_lz4 mode => events (enable_parallel_lz4 mode w)
  | call_set_compression_pool_size pool_size => events (set_compression_pool_size pool_size w)
  | call_set_use_async_pool use_async_pool => events (set_use_async_pool use_async_pool w)
  | call_compress_array str_list withHC => events (compress_array str_list withHC w)
  | call_compressHC_array str_list => events (compressHC_array str_list w)
  | call_decompress_array str_list => events (decompress_array str_list w)
  | call_compress s => events (compress s w)
  | call_compressHC s => events (compressHC s w)
  | call_decompress s => events (decompress s w)
  end.

(** The state after a sequence of calls, each made whatever the one before
    returned or raised. *)
Fixpoint after_all (cs : list api_call) (w : world) : world :=
  match cs with
  | [] => w
  | c :: cs' => after_all cs' (after c w)
  end.

End Run.

(** A state in which [LZ4_WORKERS] is a valid pool size and
    [_compress_thread_pool], when bound, holds either [ASYNC_ARCTIC] in
    shared mode or a [ThreadPool] of the heap that still accepts work. *)
Definition healthy (w : world) : bool :=
  (1 <=? LZ4_WORKERS w)
  && match _compress_thread_pool w with
     | None => true
     | Some ASYNC_ARCTIC => LZ4_USE_ASYNC_POOL w
     | Some ASYNC_ARCTIC_workers_pool => false
     | Some (ThreadPool id) =>
         match heap w !! id with
         | Some tp => running tp
         | None => false
         end
     end.

(** A healthy state whose mode flag agrees with the object bound: no
    [ThreadPool] is bound while [LZ4_USE_ASYNC_POOL] is set. *)
Definition usable (w : world) : bool :=
  healthy w
  && match _compress_thread_pool w with
     | Some (ThreadPool _) => negb (LZ4_USE_ASYNC_POOL w)
     | _ => true
     end.

(** The heap a drain leaves: in dedicated mode the bound [ThreadPool] is
    closed and joined. *)
Definition drained (w : world) : list thread_pool :=
  match _compress_thread_pool w with
  | Some (ThreadPool id) =>
      if LZ4_USE_ASYNC_POOL w then heap w
      else match heap w !! id with
           | Some tp => <[id := mkThreadPool (processes tp) false true]> (heap w)
           | None => heap w
           end
  | _ => heap w
  end.

(** How a later state relates to an earlier one: what no function of the
    module undoes. *)
Record evolves (w w' : world) : Prop := mkEvolves {
  evolves_N : LZ4_N_PARALLEL w' = LZ4_N_PARALLEL w;
  evolves_MINSZ : LZ4_MINSZ_PARALLEL w' = LZ4_MINSZ_PARALLEL w;
  evolves_BENCHMARK : BENCHMARK_MODE w' = BENCHMARK_MODE w;
  evolves_shared : LZ4_USE_ASYNC_POOL w = true -> LZ4_USE_ASYNC_POOL w' = true;
  evolves_heap : forall (id : nat) (tp : thread_pool),
    heap w !! id = Some tp ->
    exists tp', heap w' !! id = Some tp'
                /\ processes tp' = processes tp
                /\ (running tp = false -> running tp' = false)
                /\ (joined tp = true -> joined tp' = true)
}.

(** The six configuration globals agree. *)
Definition same_config (w w' : world) : Prop :=
  ENABLE_PARALLEL w' = ENABLE_PARALLEL w
  /\ LZ4_USE_ASYNC_POOL w' = LZ4_USE_ASYNC_POOL w
  /\ LZ4_WORKERS w' = LZ4_WORKERS w
  /\ LZ4_N_PARALLEL w' = LZ4_N_PARALLEL w
  /\ LZ4_MINSZ_PARALLEL w' = LZ4_MINSZ_PARALLEL w
  /\ BENCHMARK_MODE w' = BENCHMARK_MODE w.

(** A codec whose decompression undoes both compressions. *)
Definition round_trips (codec : Lz4) : Prop :=
  forall s y : block,
    @run codec lz4_compress s = Some y \/ @run codec lz4_compressHC s = Some y ->
    @run codec lz4_decompress y = Some s.

(** Records that are neither a [map] on a pool nor a call of a transform. *)
Definition administrative (e : event) : Prop :=
  match e with
  | GetPool | Log _ => True
  | PoolMap _ _ _ | Call _ _ => False
  end.

Section Paths.

Context `{codec : Lz4}.

(** [o] is the outcome, from state [w], of calling [f] on the chunks of [l]
    one after the other on the calling thread: the state is unchanged; when
    the codec accepts every chunk, [f] is called on each chunk in input
    order and the results are returned in that order; when it rejects one,
    [f] is called on the chunks before the first rejected one and on that
    one, on no chunk after it, and the codec's error is raised. *)
Definition sequential (f : transform) (l : list block) (w : world)
    (o : outcome (list block)) : Prop :=
  final o = w
  /\ (forall out, results f l = Ok out ->
      res o = Ok out /\ events o = Call f <$> l)
  /\ (forall l1 s l2,
      l = l1 ++ s :: l2 ->
      Forall (fun c => is_Some (run f c)) l1 ->
      run f s = None ->
      res o = Raise Lz4Error /\ events o = Call f <$> (l1 ++ [s])).

(** [o] is the outcome, from state [w], of one [map] of [f] over the whole
    of [l] on the pool that [_get_compression_pool()] returns: the accessor
    returns a pool, the state is the one the accessor leaves, the result is
    the list of the transformed chunks in input order, or the codec's error,
    and after the records of the accessor the only record is that [map]: no
    transform is called on the calling thread. *)
Definition through_pool (f : transform) (l : list block) (w : world)
    (o : outcome (list block)) : Prop :=
  exists p,
    res (_get_compression_pool w) = Ok p
    /\ final o = final (_get_compression_pool w)
    /\ res o = results f l
    /\ events o = events (_get_compression_pool w) ++ [PoolMap p f l]
    /\ Forall administrative (events (_get_compression_pool w)).

End Paths.

(** A computation whose final state always [evolves] from its initial one. *)
Definition preserves {A : Type} (m : M A) : Prop :=
  forall w : world, evolves w (final (m w)).

End Api.

(** ** Properties of arctic/async/async_utils.py *)

Module AsyncUtilsFacts.

Import AsyncUtils.

Section Facts.

Context {pyobject : Type}.
Implicit Types r : AsyncRequest pyobject.

Lemma is_completed_iff r : is_completed r = true <-> end_time r <> None.
Proof.
  unfold is_completed. destruct (end_time r); split; intros; congruence.
Qed.

Lemma execution_duration_ok_iff r :
  (exists d, execution_duration r = Ok d) <-> (end_time r <> None -> start_time r <> None).
Proof.
  unfold execution_duration, sub_opt.
  destruct (end_time r) as [e|], (start_time r) as [s|]; split.
  all: try (intros _; eexists; reflexivity).
  all: try (intros; congruence).
  - intros [d Hd]. discriminate Hd.
  - intros H. exfalso. apply H; congruence.
Qed.

Lemma sub_nonneg_not_sentinel (a b : Q) : (a <= b)%Q -> ~ (b - a == -1)%Q.
Proof. intros Hle Heq. lra. Qed.

(** C8, as the code has it.  On every request that follows the life cycle
    ([start_time] set whenever [end_time] is, and
    [create_time <= start_time <= end_time] for the timestamps that are
    set): [execution_duration] is [end_time - start_time] when completed and
    -1 otherwise, [schedule_delay] is [start_time - create_time] when started
    and -1 otherwise, [total_time] is [end_time - create_time] when completed
    and -1 otherwise; each accessor returns the sentinel exactly when its
    prerequisite timestamp is unset; and [is_completed] holds exactly when
    [end_time] is set. *)
Theorem timing_accessors r :
  lifecycle_ok r ->
  (forall e, end_time r = Some e ->
     exists s, start_time r = Some s /\ execution_duration r = Ok (e - s)%Q)
  /\ (end_time r = None -> execution_duration r = Ok (-1)%Q)
  /\ (forall s, start_time r = Some s -> schedule_delay r = Ok (s - create_time r)%Q)
  /\ (start_time r = None -> schedule_delay r = Ok (-1)%Q)
  /\ (forall e, end_time r = Some e -> total_time r = Ok (e - create_time r)%Q)
  /\ (end_time r = None -> total_time r = Ok (-1)%Q)
  /\ (returns_sentinel (execution_duration r) <-> end_time r = None)
  /\ (returns_sentinel (schedule_delay r) <-> start_time r = None)
  /\ (returns_sentinel (total_time r) <-> end_time r = None)
  /\ (is_completed r = true <-> end_time r <> None).
Proof.
  intros Hlife.
  pose proof (is_completed_iff r) as Hdone.
  unfold lifecycle_ok in Hlife.
  unfold execution_duration, schedule_delay, total_time, sub_opt, returns_sentinel.
  destruct (start_time r) as [s|] eqn:Hs, (end_time r) as [e|] eqn:He;
    try contradiction.
  all: repeat match goal with |- _ /\ _ => split end.
  all: try exact Hdone.
  all: try (intros; congruence).
  all: try (intros; reflexivity).
  all: try (intros e' [= <-]; exists s; split; reflexivity).
  all: try (split; [| intros; congruence]; intros H; exfalso;
            eapply sub_nonneg_not_sentinel; [| exact H]; lra).
  all: split; intros; reflexivity.
Qed.

(** C10.  With [end_time] set and [start_time] unset, reading
    [execution_duration] raises [TypeError], from [end_time - None]: it
    returns neither the sentinel nor any other number.  The accessor returns
    a number exactly on the requests whose [start_time] is set whenever
    their [end_time] is set. *)
Theorem execution_duration_needs_start_time r :
  (end_time r <> None -> start_time r = None ->
     execution_duration r = Raise TypeError)
  /\ ((exists d, execution_duration r = Ok d)
      <-> (end_time r <> None -> start_time r <> None)).
Proof.
  split; [| apply execution_duration_ok_iff].
  intros He Hs. unfold execution_duration, sub_opt. rewrite Hs.
  destruct (end_time r); [reflexivity | congruence].
Qed.

Lemma store_start_time_returns r t : raises (store_start_time t r) = false.
Proof. reflexivity. Qed.

Lemma store_end_time_returns r t : raises (store_end_time t r) = false.
Proof. reflexivity. Qed.

Lemma store_data_returns r x : raises (store_data x r) = false.
Proof. reflexivity. Qed.

Lemma store_exception_returns r x : raises (store_exception x r) = false.
Proof. reflexivity. Qed.

(** C6, as the code has it.  The class has no operation that marks a
    request started or completed and no invalid-state error: [start_time],
    [end_time], [data] and [exception] are plain attributes, and a store
    into any of the four returns normally on every request, whatever its
    timestamps hold.  On a request fresh from [__init__], storing
    [start_time = t1], then [data = x] and [end_time = t2] with [t1 <= t2],
    leaves [data] equal to [x], [exception] unset, the request completed and
    [execution_duration = t2 - t1 >= 0]. *)
Theorem request_stores (uuid4 : N) (now : Q) (kind : AsyncRequestType)
    (library fn : pyobject) (args : list pyobject) (kwargs : gmap string pyobject)
    (t1 t2 : Q) (x : pyobject) :
  (t1 <= t2)%Q ->
  (forall r t y,
     raises (store_start_time t r) = false
     /\ raises (store_end_time t r) = false
     /\ raises (store_data y r) = false
     /\ raises (store_exception y r) = false)
  /\ exists r',
       and_then (store_start_time t1 (__init__ uuid4 now kind library fn args kwargs))
         (fun r1 => and_then (store_data x r1) (store_end_time t2)) = Ok r'
       /\ data r' = Some x
       /\ exception r' = None
       /\ is_completed r' = true
       /\ execution_duration r' = Ok (t2 - t1)%Q
       /\ (0 <= t2 - t1)%Q.
Proof.
  intros Hle. split.
  - intros r t y.
    split; [apply store_start_time_returns |].
    split; [apply store_end_time_returns |].
    split; [apply store_data_returns | apply store_exception_returns].
  - eexists. split; [reflexivity |]. cbn. repeat split. lra.
Qed.

End Facts.

(** C6 at a request started at 101 that ends at 105 with the result ["rows"]. *)
Lemma request_stores_witness :
  (101 <= 105)%Q
  /\ exists r' : AsyncRequest string,
       and_then (store_start_time 101%Q Samples.fresh_request)
         (fun r1 => and_then (store_data "rows"%string r1) (store_end_time 105%Q)) = Ok r'
       /\ data r' = Some "rows"%string
       /\ exception r' = None
       /\ is_completed r' = true
       /\ execution_duration r' = Ok (105 - 101)%Q
       /\ (0 <= 105 - 101)%Q.
Proof.
  assert (Hle : (101 <= 105)%Q) by (unfold Qle; simpl; lia).
  split; [exact Hle |].
  apply (request_stores 1%N 100%Q ACCESSOR "lib"%string "read"%string [] ∅
           101%Q 105%Q "rows"%string Hle).
Defined.

(** C6 as stated fails: none of the three stores is refused.  A second
    store into [start_time] rebinds it, a store into [end_time] on a request
    that was never started completes it, and a second store into [end_time]
    rebinds it; each returns normally. *)
Lemma request_stores_counterexample :
  (start_time Samples.started_request = Some 101%Q
   /\ exists r', store_start_time 102%Q Samples.started_request = Ok r'
                 /\ start_time r' = Some 102%Q)
  /\ (start_time Samples.fresh_request = None
      /\ exists r', store_end_time 105%Q Samples.fresh_request = Ok r'
                    /\ is_completed r' = true)
  /\ (end_time Samples.completed_request = Some 105%Q
      /\ exists r', store_end_time 106%Q Samples.completed_request = Ok r'
                    /\ end_time r' = Some 106%Q).
Proof. repeat split; eexists; split; reflexivity. Qed.

(** What the class does refuse: a store into one of its properties. *)
Example store_into_property :
  store_is_completed true Samples.fresh_request = Raise AttributeError.
Proof. reflexivity. Qed.

(** C10 at a request whose [end_time] alone is set. *)
Example execution_duration_raises :
  execution_duration Samples.ended_unstarted_request = Raise TypeError.
Proof. reflexivity. Qed.

(** C8 at a request started at 101 and ended at 105. *)
Lemma timing_accessors_witness :
  lifecycle_ok Samples.completed_request
  /\ execution_duration Samples.completed_request = Ok (105 - 101)%Q
  /\ (returns_sentinel (total_time Samples.completed_request)
       <-> end_time Samples.completed_request = None).
Proof.
  assert (Hlife : lifecycle_ok Samples.completed_request).
  { unfold lifecycle_ok; simpl. split; unfold Qle; simpl; lia. }
  split; [exact Hlife |].
  split; [reflexivity |].
  apply (timing_accessors Samples.completed_request Hlife).
Defined.

(** C8 as stated fails: with [end_time] set and [start_time] unset the
    request is completed, and [execution_duration] is no number at all;
    and a completed request whose clock went back one second between start
    and end reads -1 although [end_time] is set. *)
Lemma timing_accessors_counterexample :
  (is_completed Samples.ended_unstarted_request = true
   /\ end_time Samples.ended_unstarted_request = Some 105%Q
   /\ execution_duration Samples.ended_unstarted_request = Raise TypeError)
  /\ (is_completed Samples.backwards_request = true
      /\ end_time Samples.backwards_request = Some 100%Q
      /\ execution_duration Samples.backwards_request = Ok (-1)%Q).
Proof. repeat split. Qed.

End AsyncUtilsFacts.

(** ** Properties of arctic/_compression.py *)

Module CompressionFacts.

Import Compression.

Section Facts.

Context `{codec : Lz4}.

(** *** Sequencing *)

Lemma bind_Ok {A B : Type} (m : M A) (k : A -> M B) (w : world) (a : A) :
  res (m w) = Ok a ->
  bind m k w = mkOutcome (res (k a (final (m w)))) (final (k a (final (m w))))
                 (events (m w) ++ events (k a (final (m w)))).
Proof. intros H. unfold bind. rewrite H. reflexivity. Qed.

Lemma bind_Raise {A B : Type} (m : M A) (k : A -> M B) (w : world) (e : exn) :
  res (m w) = Raise e ->
  bind m k w = mkOutcome (Raise e) (final (m w)) (events (m w)).
Proof. intros H. unfold bind. rewrite H. reflexivity. Qed.

Lemma bind_events_prefix {A B : Type} (m : M A) (k : A -> M B) (w : world) :
  events (m w) `prefix_of` events (bind m k w).
Proof.
  unfold bind. destruct (res (m w)); simpl.
  - apply prefix_app_r. reflexivity.
  - reflexivity.
Qed.

(** *** The list comprehension *)

Lemma comprehension_final (f : transform) (l : list block) (w : world) :
  final (comprehension f l w) = w.
Proof.
  induction l as [|s l IH]; [reflexivity |].
  simpl. unfold bind, call; simpl.
  destruct (run f s); simpl; [| reflexivity].
  destruct (res (comprehension f l w)); simpl; exact IH.
Qed.

Lemma comprehension_res (f : transform) (l : list block) (w : world) :
  res (comprehension f l w) = results f l.
Proof.
  unfold results. induction l as [|s l IH]; [reflexivity |].
  simpl. unfold bind, call; simpl.
  destruct (run f s) as [y|]; simpl; [| reflexivity].
  rewrite comprehension_final, IH.
  destruct (mapM (run f) l); reflexivity.
Qed.

Lemma comprehension_events_prefix (f : transform) (l : list block) (w : world) :
  events (comprehension f l w) `prefix_of` (Call f <$> l).
Proof.
  induction l as [|s l IH]; [reflexivity |].
  simpl. unfold bind, call; simpl.
  destruct (run f s) as [y|]; simpl.
  - apply prefix_cons.
    destruct (res (comprehension f l w)); simpl.
    + rewrite app_nil_r. exact IH.
    + exact IH.
  - apply prefix_cons. apply prefix_nil.
Qed.

Lemma comprehension_events_Ok (f : transform) (l out : list block) (w : world) :
  res (comprehension f l w) = Ok out ->
  events (comprehension f l w) = Call f <$> l.
Proof.
  revert out. induction l as [|s l IH]; intros out; [reflexivity |].
  simpl. unfold bind, call; simpl.
  destruct (run f s) as [y|]; simpl; [| discriminate].
  destruct (res (comprehension f l w)) as [ys|] eqn:Hres; simpl; [| discriminate].
  intros _. rewrite app_nil_r. f_equal. exact (IH ys eq_refl).
Qed.

Lemma comprehension_no_GetPool (f : transform) (l : list block) (w : world) :
  GetPool ∉ events (comprehension f l w).
Proof.
  intros Hin.
  destruct (comprehension_events_prefix f l w) as [rest Hrest].
  assert (Hin' : GetPool ∈ Call f <$> l).
  { rewrite Hrest. apply elem_of_app. left. exact Hin. }
  apply list_elem_of_fmap in Hin' as (s & Hs & _). discriminate Hs.
Qed.

(** *** Calls of [_get_compression_pool] *)

Lemma _get_compression_pool_events (w : world) :
  exists evs, events (_get_compression_pool w) = GetPool :: evs.
Proof.
  destruct (bind_events_prefix (emit GetPool)
              (fun _ => bind get (fun w0 =>
                 bind (match _compress_thread_pool w0 with
                       | None => _init_thread_pool None None
                       | Some _ => ret tt
                       end)
                   (fun _ => bind get (fun w1 =>
                      match _compress_thread_pool w1 with
                      | Some p => if LZ4_USE_ASYNC_POOL w1 then _workers_pool p else ret p
                      | None => raise AttributeError
                      end)))) w) as [evs Hevs].
  exists evs. exact Hevs.
Qed.

Lemma via_pool_GetPool {A : Type} (k : pyobj -> M A) (w : world) :
  GetPool ∈ events (bind _get_compression_pool k w).
Proof.
  destruct (_get_compression_pool_events w) as [evs Hevs].
  destruct (bind_events_prefix _get_compression_pool k w) as [rest Hrest].
  rewrite Hrest, Hevs. apply elem_of_cons. left. reflexivity.
Qed.

Lemma bind_get {A : Type} (k : world -> M A) (w : world) :
  bind get k w = k w w.
Proof. unfold bind, get; simpl. destruct (k w w); reflexivity. Qed.

Lemma bind_emit {A : Type} (e : event) (k : unit -> M A) (w : world) :
  bind (emit e) k w
  = mkOutcome (res (k tt w)) (final (k tt w)) (e :: events (k tt w)).
Proof. reflexivity. Qed.

(** *** Which path a batch takes *)

Lemma compress_array_pool_iff (w : world) (s0 : block) (l : list block) (withHC : bool) :
  GetPool ∈ events (compress_array (s0 :: l) withHC w)
  <-> BENCHMARK_MODE w = true
      \/ (ENABLE_PARALLEL w = true /\ withHC = true)
      \/ (LZ4_N_PARALLEL w < len (s0 :: l) /\ LZ4_MINSZ_PARALLEL w < len s0).
Proof.
  unfold compress_array. rewrite bind_get.
  destruct (BENCHMARK_MODE w
            || (ENABLE_PARALLEL w && withHC
                || (LZ4_N_PARALLEL w <? len (s0 :: l)) && (LZ4_MINSZ_PARALLEL w <? len s0)))
    eqn:Hcond.
  - split; [intros _ | intros _; apply via_pool_GetPool].
    apply orb_true_iff in Hcond as [Hb | Hcond]; [left; exact Hb | right].
    apply orb_true_iff in Hcond as [Hp | Hn]; [left | right].
    + apply andb_true_iff in Hp. exact Hp.
    + apply andb_true_iff in Hn as [Hn Hm]. split; apply Z.ltb_lt; assumption.
  - split; [intros Hin; exfalso; exact (comprehension_no_GetPool _ _ _ Hin) |].
    apply orb_false_iff in Hcond as [Hb Hcond].
    apply orb_false_iff in Hcond as [Hp Hn].
    intros [Hb' | [[Hp1 Hp2] | [Hn1 Hn2]]].
    + congruence.
    + rewrite Hp1, Hp2 in Hp. discriminate Hp.
    + apply Z.ltb_lt in Hn1, Hn2. rewrite Hn1, Hn2 in Hn. discriminate Hn.
Qed.

Lemma decompress_array_pool_iff (w : world) (s0 : block) (l : list block) :
  GetPool ∈ events (decompress_array (s0 :: l) w)
  <-> ENABLE_PARALLEL w = true /\ LZ4_N_PARALLEL w < len (s0 :: l).
Proof.
  unfold decompress_array. rewrite bind_get.
  destruct (negb (ENABLE_PARALLEL w) || (len (s0 :: l) <=? LZ4_N_PARALLEL w)) eqn:Hcond.
  - split; [intros Hin; exfalso; exact (comprehension_no_GetPool _ _ _ Hin) |].
    intros [Hp Hn]. rewrite Hp in Hcond. simpl in Hcond.
    apply Z.leb_le in Hcond. lia.
  - split; [intros _ | intros _; apply via_pool_GetPool].
    apply orb_false_iff in Hcond as [Hp Hn].
    apply negb_false_iff in Hp. apply Z.leb_gt in Hn. split; assumption.
Qed.

Lemma len_cons_length (s0 : block) (l l' : list block) :
  length l' = length l -> len (s0 :: l') = len (s0 :: l).
Proof. intros H. unfold len. simpl. rewrite H. reflexivity. Qed.

(** C9.  On the empty batch [compress_array] and [decompress_array] return
    the empty batch at once: whatever the globals hold, the state is left
    as it was, no pool is asked for, created or used, and no transform is
    called. *)
Theorem empty_batch (w : world) (withHC : bool) :
  compress_array [] withHC w = mkOutcome (Ok []) w []
  /\ decompress_array [] w = mkOutcome (Ok []) w [].
Proof. split; reflexivity. Qed.

(** *** Switching and resizing the pool *)

(** C5, as the code has it.  In shared mode [set_compression_pool_size]
    raises nothing, whatever its argument: it logs a warning and returns,
    and leaves every global and every pool as it was. *)
Theorem set_compression_pool_size_shared (w : world) (pool_size : pyarg) :
  LZ4_USE_ASYNC_POOL w = true ->
  set_compression_pool_size pool_size w
  = mkOutcome (Ok tt) w [Log warn_cant_set_pool_size].
Proof.
  intros Hshared. unfold set_compression_pool_size.
  rewrite bind_get, Hshared. reflexivity.
Qed.

Lemma set_use_async_pool_same (w : world) :
  set_use_async_pool (LZ4_USE_ASYNC_POOL w) w = mkOutcome (Ok tt) w [].
Proof.
  unfold set_use_async_pool. rewrite bind_get.
  destruct (LZ4_USE_ASYNC_POOL w); reflexivity.
Qed.

Lemma set_compression_pool_size_same (w : world) :
  LZ4_USE_ASYNC_POOL w = false -> 1 <= LZ4_WORKERS w ->
  set_compression_pool_size (PyInt (LZ4_WORKERS w)) w = mkOutcome (Ok tt) w [].
Proof.
  intros Hded Hpos. unfold set_compression_pool_size.
  rewrite bind_get, Hded. unfold int, bind, ret; simpl.
  destruct (LZ4_WORKERS w <? 1) eqn:Hlt; [apply Z.ltb_lt in Hlt; lia |].
  rewrite Z.eqb_refl. reflexivity.
Qed.

(** Closing and joining a [ThreadPool] of the heap succeeds: the handler of
    the [try] does not run. *)
Lemma drain_ThreadPool (w : world) (id : nat) (tp : thread_pool) (h : M unit) :
  heap w !! id = Some tp ->
  try_except (close (ThreadPool id) ;; join (ThreadPool id)) h w
  = mkOutcome (Ok tt)
      (with_heap (<[id := mkThreadPool (processes tp) false true]> (heap w)) w) [].
Proof.
  intros Hid. pose proof (lookup_lt_Some _ _ _ Hid) as Hlt.
  unfold try_except, bind, close, join; simpl.
  rewrite Hid; simpl.
  rewrite list_lookup_insert_eq by exact Hlt. simpl.
  rewrite list_insert_insert_eq. reflexivity.
Qed.

Lemma init_dedicated_from_shared (w : world) :
  LZ4_USE_ASYNC_POOL w = true -> 1 <= LZ4_WORKERS w ->
  _init_thread_pool (Some false) None w
  = mkOutcome (Ok tt)
      (mkWorld (ENABLE_PARALLEL w) true (LZ4_WORKERS w) (LZ4_N_PARALLEL w)
         (LZ4_MINSZ_PARALLEL w) (BENCHMARK_MODE w)
         (Some (ThreadPool (length (heap w))))
         (heap w ++ [mkThreadPool (LZ4_WORKERS w) true false]))
      [Log (info_using_separate_pool (LZ4_WORKERS w))].
Proof.
  intros Hshared Hpos.
  unfold _init_thread_pool. rewrite bind_get. rewrite Hshared. simpl.
  assert (Hskip : match _compress_thread_pool w with
                  | Some _ => ret tt
                  | None => ret tt
                  end = ret tt) by (destruct (_compress_thread_pool w); reflexivity).
  rewrite Hskip.
  unfold bind, ret, emit, modify, ThreadPool_new; simpl.
  destruct (LZ4_WORKERS w <? 1) eqn:Hlt; [apply Z.ltb_lt in Hlt; lia |].
  simpl. unfold with_LZ4_WORKERS, with_compress_thread_pool, with_heap; simpl.
  rewrite Hshared. reflexivity.
Qed.

(** The other direction installs the shared pool: the dedicated pool is
    closed and joined, [ASYNC_ARCTIC] is bound and the mode flag is set. *)
Lemma init_shared_from_dedicated (w : world) (id : nat) (tp : thread_pool) :
  LZ4_USE_ASYNC_POOL w = false ->
  _compress_thread_pool w = Some (ThreadPool id) ->
  heap w !! id = Some tp ->
  set_use_async_pool true w
  = mkOutcome (Ok tt)
      (mkWorld (ENABLE_PARALLEL w) true (LZ4_WORKERS w) (LZ4_N_PARALLEL w)
         (LZ4_MINSZ_PARALLEL w) (BENCHMARK_MODE w) (Some ASYNC_ARCTIC)
         (<[id := mkThreadPool (processes tp) false true]> (heap w)))
      [Log info_using_common_async_pool].
Proof.
  intros Hded Hpool Hid.
  unfold set_use_async_pool. rewrite bind_get, Hded. simpl.
  unfold _init_thread_pool. rewrite bind_get, Hded, Hpool. simpl.
  unfold bind at 1.
  rewrite (drain_ThreadPool w id tp _ Hid). simpl.
  reflexivity.
Qed.

(** C3 at the switch from the shared pool to a dedicated one.  From shared
    mode [set_use_async_pool(False)] creates a [ThreadPool] and binds it,
    but [LZ4_USE_ASYNC_POOL] stays set.  Afterwards
    [_get_compression_pool()] reads [_workers_pool] on the [ThreadPool] and
    raises [AttributeError], and [set_use_async_pool(True)] finds the flag
    set and returns at once: the [ThreadPool] stays bound and running. *)
Theorem set_use_async_pool_dedicated (w : world) :
  LZ4_USE_ASYNC_POOL w = true -> 1 <= LZ4_WORKERS w ->
  let o1 := set_use_async_pool false w in
  let w1 := final o1 in
  res o1 = Ok tt
  /\ LZ4_USE_ASYNC_POOL w1 = true
  /\ _compress_thread_pool w1 = Some (ThreadPool (length (heap w)))
  /\ heap w1 = heap w ++ [mkThreadPool (LZ4_WORKERS w) true false]
  /\ _get_compression_pool w1 = mkOutcome (Raise AttributeError) w1 [GetPool]
  /\ set_use_async_pool true w1 = mkOutcome (Ok tt) w1 [].
Proof.
  intros Hshared Hpos. cbv zeta.
  assert (Hrun : set_use_async_pool false w = _init_thread_pool (Some false) None w).
  { unfold set_use_async_pool. rewrite bind_get, Hshared. reflexivity. }
  rewrite Hrun, (init_dedicated_from_shared w Hshared Hpos). simpl.
  repeat split.
Qed.

Lemma init_resize (w : world) (id : nat) (tp : thread_pool) (n : Z) :
  LZ4_USE_ASYNC_POOL w = false ->
  _compress_thread_pool w = Some (ThreadPool id) ->
  heap w !! id = Some tp ->
  1 <= LZ4_WORKERS w ->
  _init_thread_pool None (Some n) w
  = mkOutcome (Ok tt)
      (mkWorld (ENABLE_PARALLEL w) false n (LZ4_N_PARALLEL w)
         (LZ4_MINSZ_PARALLEL w) (BENCHMARK_MODE w)
         (Some (ThreadPool (length (heap w))))
         (<[id := mkThreadPool (processes tp) false true]> (heap w)
          ++ [mkThreadPool (LZ4_WORKERS w) true false]))
      [Log (info_using_separate_pool (LZ4_WORKERS w))].
Proof.
  intros Hded Hpool Hid Hpos.
  unfold _init_thread_pool. rewrite bind_get, Hded, Hpool. simpl.
  unfold bind at 1.
  rewrite (drain_ThreadPool w id tp _ Hid). simpl.
  unfold bind, ret, emit, modify, ThreadPool_new; simpl.
  destruct (LZ4_WORKERS w <? 1) eqn:Hlt; [apply Z.ltb_lt in Hlt; lia |].
  simpl. unfold with_LZ4_WORKERS, with_compress_thread_pool, with_heap; simpl.
  rewrite Hded, length_insert. reflexivity.
Qed.

(** C4 at a resize of the dedicated pool.  In dedicated mode, with a pool in
    place, [set_compression_pool_size(n)] for [n >= 1] other than
    [LZ4_WORKERS] returns normally, closes and joins the old pool and binds
    a new one, and stores [n] in [LZ4_WORKERS]; but the new pool is created
    by [ThreadPool(LZ4_WORKERS)] before that store, so it has as many
    workers as the old size, not [n], and it is the pool that later batches
    get.  With [n] equal to [LZ4_WORKERS] the call changes nothing. *)
Theorem set_compression_pool_size_dedicated (w : world) (id : nat) (tp : thread_pool) (n : Z) :
  LZ4_USE_ASYNC_POOL w = false ->
  _compress_thread_pool w = Some (ThreadPool id) ->
  heap w !! id = Some tp ->
  1 <= LZ4_WORKERS w ->
  1 <= n ->
  n <> LZ4_WORKERS w ->
  let o := set_compression_pool_size (PyInt n) w in
  res o = Ok tt
  /\ LZ4_WORKERS (final o) = n
  /\ _compress_thread_pool (final o) = Some (ThreadPool (length (heap w)))
  /\ heap (final o) !! id = Some (mkThreadPool (processes tp) false true)
  /\ heap (final o) !! length (heap w) = Some (mkThreadPool (LZ4_WORKERS w) true false)
  /\ _get_compression_pool (final o)
     = mkOutcome (Ok (ThreadPool (length (heap w)))) (final o) [GetPool]
  /\ set_compression_pool_size (PyInt (LZ4_WORKERS w)) w = mkOutcome (Ok tt) w [].
Proof.
  intros Hded Hpool Hid Hpos Hn Hne. cbv zeta.
  pose proof (lookup_lt_Some _ _ _ Hid) as Hlt.
  assert (Hrun : set_compression_pool_size (PyInt n) w
                 = _init_thread_pool None (Some n) w).
  { unfold set_compression_pool_size. rewrite bind_get, Hded.
    unfold int. unfold bind at 1. unfold ret at 1. simpl.
    destruct (n <? 1) eqn:Hn1; [apply Z.ltb_lt in Hn1; lia |].
    destruct (LZ4_WORKERS w =? n) eqn:Heq; [apply Z.eqb_eq in Heq; lia |].
    destruct (_init_thread_pool None (Some n) w); simpl. reflexivity. }
  rewrite Hrun, (init_resize w id tp n Hded Hpool Hid Hpos). simpl.
  split; [reflexivity |]. split; [reflexivity |]. split; [reflexivity |].
  split.
  { rewrite lookup_app_l by (rewrite length_insert; exact Hlt).
    apply list_lookup_insert_eq. exact Hlt. }
  split.
  { rewrite <- (length_insert (heap w) id (mkThreadPool (processes tp) false true)).
    apply list_lookup_middle. reflexivity. }
  split; [reflexivity |].
  apply (set_compression_pool_size_same w Hded Hpos).
Qed.

Lemma init_lazy (w : world) :
  _compress_thread_pool w = None ->
  LZ4_USE_ASYNC_POOL w = false ->
  1 <= LZ4_WORKERS w ->
  _init_thread_pool None None w
  = mkOutcome (Ok tt)
      (mkWorld (ENABLE_PARALLEL w) false (LZ4_WORKERS w) (LZ4_N_PARALLEL w)
         (LZ4_MINSZ_PARALLEL w) (BENCHMARK_MODE w)
         (Some (ThreadPool (length (heap w))))
         (heap w ++ [mkThreadPool (LZ4_WORKERS w) true false]))
      [Log (info_using_separate_pool (LZ4_WORKERS w))].
Proof.
  intros Hnone Hded Hpos.
  unfold _init_thread_pool. rewrite bind_get, Hnone, Hded. simpl.
  unfold bind, ret, emit, modify, ThreadPool_new; simpl.
  destruct (LZ4_WORKERS w <? 1) eqn:Hlt; [apply Z.ltb_lt in Hlt; lia |].
  simpl. unfold with_LZ4_WORKERS, with_compress_thread_pool, with_heap; simpl.
  rewrite Hded. reflexivity.
Qed.

(** The first call of [_get_compression_pool()] in dedicated mode creates
    the pool. *)
Lemma get_pool_lazy_init (w : world) :
  _compress_thread_pool w = None ->
  LZ4_USE_ASYNC_POOL w = false ->
  1 <= LZ4_WORKERS w ->
  _get_compression_pool w
  = mkOutcome (Ok (ThreadPool (length (heap w))))
      (mkWorld (ENABLE_PARALLEL w) false (LZ4_WORKERS w) (LZ4_N_PARALLEL w)
         (LZ4_MINSZ_PARALLEL w) (BENCHMARK_MODE w)
         (Some (ThreadPool (length (heap w))))
         (heap w ++ [mkThreadPool (LZ4_WORKERS w) true false]))
      [GetPool; Log (info_using_separate_pool (LZ4_WORKERS w))].
Proof.
  intros Hnone Hded Hpos.
  unfold _get_compression_pool.
  rewrite bind_emit, bind_get, Hnone.
  rewrite (bind_Ok _ _ _ tt) by (rewrite (init_lazy w Hnone Hded Hpos); reflexivity).
  rewrite (init_lazy w Hnone Hded Hpos). simpl.
  reflexivity.
Qed.

(** C1 at a large batch.  With [ENABLE_PARALLEL] off, [compress_array]
    without high compression still asks for the pool when the batch has more
    than [LZ4_N_PARALLEL] chunks and its first chunk more than
    [LZ4_MINSZ_PARALLEL] bytes; on a module that has no pool yet it creates
    one and maps the batch over it.  [decompress_array] on the same batch
    and state stays away from the pool. *)
Theorem compress_array_parallel_off (w : world) (s0 : block) (l : list block) :
  ENABLE_PARALLEL w = false ->
  LZ4_N_PARALLEL w < len (s0 :: l) ->
  LZ4_MINSZ_PARALLEL w < len s0 ->
  GetPool ∈ events (compress_array (s0 :: l) false w)
  /\ (_compress_thread_pool w = None -> LZ4_USE_ASYNC_POOL w = false ->
      1 <= LZ4_WORKERS w ->
      events (compress_array (s0 :: l) false w)
      = [GetPool; Log (info_using_separate_pool (LZ4_WORKERS w));
         PoolMap (ThreadPool (length (heap w))) lz4_compress (s0 :: l)])
  /\ GetPool ∉ events (decompress_array (s0 :: l) w).
Proof.
  intros Hoff Hn Hm. split; [| split].
  - apply compress_array_pool_iff. right. right. split; assumption.
  - intros Hnone Hded Hpos.
    unfold compress_array. rewrite bind_get.
    apply Z.ltb_lt in Hn, Hm. rewrite Hn, Hm, Hoff. simpl.
    rewrite orb_true_r.
    unfold bind. rewrite (get_pool_lazy_init w Hnone Hded Hpos). simpl.
    unfold map_; simpl.
    rewrite list_lookup_middle by reflexivity. simpl. reflexivity.
  - intros Hin. apply decompress_array_pool_iff in Hin as [Hp _]. congruence.
Qed.

End Facts.

(** *** The module on concrete inputs *)

Lemma len_big_block : len Samples.big_block = 524289.
Proof.
  unfold len, Samples.big_block. rewrite length_replicate, Z2Nat.id; lia.
Qed.

Lemma len_big_batch (n : nat) : len (Samples.big_batch n) = Z.of_nat n.
Proof. unfold len, Samples.big_batch. rewrite length_replicate. reflexivity. Qed.

Lemma len_cons_big_batch (n : nat) :
  len (Samples.big_block :: Samples.big_batch n) = Z.of_nat (S n).
Proof.
  change (Samples.big_block :: Samples.big_batch n) with (Samples.big_batch (S n)).
  apply len_big_batch.
Qed.

Example enable_parallel_lz4_off :
  enable_parallel_lz4 false Samples.default_world
  = mkOutcome (Ok tt) Samples.parallel_off_world [Log (info_parallelization_mode false)].
Proof. reflexivity. Qed.

(** C1 at 17 chunks of 524289 bytes, after [enable_parallel_lz4(False)] on
    the default globals: a pool of two workers is created and maps the
    batch. *)
Lemma compress_array_parallel_off_witness :
  ENABLE_PARALLEL Samples.parallel_off_world = false
  /\ events (@compress_array Samples.marker_codec
               (Samples.big_block :: Samples.big_batch 16) false Samples.parallel_off_world)
     = [GetPool; Log (info_using_separate_pool 2);
        PoolMap (ThreadPool 0) lz4_compress (Samples.big_block :: Samples.big_batch 16)]
  /\ GetPool ∉ events (@decompress_array Samples.marker_codec
                         (Samples.big_block :: Samples.big_batch 16) Samples.parallel_off_world).
Proof.
  assert (Hn : LZ4_N_PARALLEL Samples.parallel_off_world
               < len (Samples.big_block :: Samples.big_batch 16)).
  { rewrite len_cons_big_batch. reflexivity. }
  assert (Hm : LZ4_MINSZ_PARALLEL Samples.parallel_off_world < len Samples.big_block).
  { rewrite len_big_block. reflexivity. }
  assert (Hpos : 1 <= LZ4_WORKERS Samples.parallel_off_world) by (simpl; lia).
  split; [reflexivity |].
  destruct (@compress_array_parallel_off Samples.marker_codec
              Samples.parallel_off_world Samples.big_block (Samples.big_batch 16)
              eq_refl Hn Hm) as (_ & Hevents & Hdecompress).
  split; [exact (Hevents eq_refl eq_refl Hpos) | exact Hdecompress].
Defined.

(** C2 as stated fails: with [BENCHMARK_MODE] on, two small chunks, parallel
    execution off and no high compression, the whole batch is mapped over
    the pool although the condition of the claim does not hold. *)
Lemma compress_array_dispatch_counterexample :
  @compress_array Samples.marker_codec [Samples.tiny_block; [Byte.x62]] false
    Samples.benchmark_world
  = mkOutcome (Ok [[Byte.x01; Byte.x61]; [Byte.x01; Byte.x62]])
      (mkWorld false false 2 16 524288 true (Some (ThreadPool 0)) [mkThreadPool 2 true false])
      [GetPool; Log (info_using_separate_pool 2);
       PoolMap (ThreadPool 0) lz4_compress [Samples.tiny_block; [Byte.x62]]]
  /\ ~ ((ENABLE_PARALLEL Samples.benchmark_world = true /\ false = true)
        \/ (LZ4_N_PARALLEL Samples.benchmark_world
            < len [Samples.tiny_block; [Byte.x62]]
            /\ LZ4_MINSZ_PARALLEL Samples.benchmark_world < len Samples.tiny_block)).
Proof.
  split; [reflexivity |].
  intros [[_ Hhc] | [Hn _]]; [discriminate Hhc | discriminate Hn].
Qed.

(** [ENABLE_PARALLEL] and high compression: one small chunk goes through the
    pool. *)
Example single_chunk_high_compression :
  @compress_array Samples.marker_codec [Samples.tiny_block] true Samples.default_world
  = mkOutcome (Ok [[Byte.x02; Byte.x61]])
      (mkWorld true false 2 16 524288 false (Some (ThreadPool 0)) [mkThreadPool 2 true false])
      [GetPool; Log (info_using_separate_pool 2);
       PoolMap (ThreadPool 0) lz4_compressHC [Samples.tiny_block]].
Proof. reflexivity. Qed.

(** Default thresholds: 17 large chunks go through the pool, 15 do not. *)
Example batch_of_17 :
  GetPool ∈ events (@compress_array Samples.marker_codec
                      (Samples.big_block :: Samples.big_batch 16) false Samples.default_world).
Proof.
  apply compress_array_pool_iff. right. right.
  rewrite len_cons_big_batch, len_big_block. split; reflexivity.
Qed.

Example batch_of_15 :
  GetPool ∉ events (@compress_array Samples.marker_codec
                      (Samples.big_block :: Samples.big_batch 14) false Samples.default_world).
Proof.
  intros Hin. apply compress_array_pool_iff in Hin.
  rewrite len_cons_big_batch in Hin.
  destruct Hin as [Hb | [[_ Hhc] | [Hn _]]]; discriminate.
Qed.

(** [decompress_array] on the default globals: 17 chunks are mapped over a
    pool created on the spot, 16 chunks are decompressed one after the other
    on the calling thread, and a chunk the codec rejects stops the loop. *)
Example decompress_batch_of_17 :
  @decompress_array Samples.marker_codec (replicate 17 [Byte.x01; Byte.x61])
    Samples.default_world
  = mkOutcome (Ok (replicate 17 Samples.tiny_block))
      (mkWorld true false 2 16 524288 false (Some (ThreadPool 0)) [mkThreadPool 2 true false])
      [GetPool; Log (info_using_separate_pool 2);
       PoolMap (ThreadPool 0) lz4_decompress (replicate 17 [Byte.x01; Byte.x61])].
Proof. reflexivity. Qed.

Example decompress_batch_of_16 :
  @decompress_array Samples.marker_codec (replicate 16 [Byte.x01; Byte.x61])
    Samples.default_world
  = mkOutcome (Ok (replicate 16 Samples.tiny_block)) Samples.default_world
      (replicate 16 (Call lz4_decompress [Byte.x01; Byte.x61])).
Proof. reflexivity. Qed.

Example decompress_rejected_chunk :
  @decompress_array Samples.marker_codec [[Byte.x01; Byte.x61]; []; [Byte.x01]]
    Samples.default_world
  = mkOutcome (Raise Lz4Error) Samples.default_world
      [Call lz4_decompress [Byte.x01; Byte.x61]; Call lz4_decompress []].
Proof. reflexivity. Qed.

(** C3 at the shared mode of the default globals. *)
Lemma set_use_async_pool_dedicated_witness :
  LZ4_USE_ASYNC_POOL Samples.shared_world = true
  /\ (let o1 := set_use_async_pool false Samples.shared_world in
      let w1 := final o1 in
      res o1 = Ok tt
      /\ LZ4_USE_ASYNC_POOL w1 = true
      /\ _compress_thread_pool w1 = Some (ThreadPool 0)
      /\ heap w1 = [mkThreadPool 2 true false]
      /\ _get_compression_pool w1 = mkOutcome (Raise AttributeError) w1 [GetPool]
      /\ set_use_async_pool true w1 = mkOutcome (Ok tt) w1 []).
Proof.
  assert (Hpos : 1 <= LZ4_WORKERS Samples.shared_world) by (simpl; lia).
  split; [reflexivity |].
  exact (set_use_async_pool_dedicated Samples.shared_world eq_refl Hpos).
Defined.

(** Batches that take the pool path after that switch raise. *)
Example compress_after_switch_raises :
  res (@compress_array Samples.marker_codec [Samples.tiny_block] true
         (final (set_use_async_pool false Samples.shared_world)))
  = Raise AttributeError.
Proof. reflexivity. Qed.

(** C4 at a resize from 2 to 4: the new pool has two workers. *)
Lemma set_compression_pool_size_dedicated_witness :
  LZ4_WORKERS Samples.dedicated_world = 2
  /\ (let o := set_compression_pool_size (PyInt 4) Samples.dedicated_world in
      res o = Ok tt
      /\ LZ4_WORKERS (final o) = 4
      /\ _compress_thread_pool (final o) = Some (ThreadPool 1)
      /\ heap (final o) !! 0%nat = Some (mkThreadPool 2 false true)
      /\ heap (final o) !! 1%nat = Some (mkThreadPool 2 true false)
      /\ _get_compression_pool (final o) = mkOutcome (Ok (ThreadPool 1)) (final o) [GetPool]
      /\ set_compression_pool_size (PyInt 2) Samples.dedicated_world
         = mkOutcome (Ok tt) Samples.dedicated_world []).
Proof.
  assert (Hpos : 1 <= LZ4_WORKERS Samples.dedicated_world) by (simpl; lia).
  assert (Hn : 1 <= 4) by lia.
  assert (Hne : 4 <> LZ4_WORKERS Samples.dedicated_world) by (simpl; lia).
  split; [reflexivity |].
  exact (set_compression_pool_size_dedicated Samples.dedicated_world 0
           (mkThreadPool 2 true false) 4 eq_refl eq_refl eq_refl Hpos Hn Hne).
Defined.

(** C5 at the shared mode of the default globals, on an argument that
    [int()] rejects. *)
Lemma set_compression_pool_size_shared_witness :
  LZ4_USE_ASYNC_POOL Samples.shared_world = true
  /\ set_compression_pool_size PyNone Samples.shared_world
     = mkOutcome (Ok tt) Samples.shared_world [Log warn_cant_set_pool_size].
Proof.
  split; [reflexivity |].
  exact (set_compression_pool_size_shared Samples.shared_world PyNone eq_refl).
Defined.

(** C5 as stated fails: in shared mode the call raises nothing. *)
Lemma set_compression_pool_size_shared_counterexample :
  LZ4_USE_ASYNC_POOL Samples.shared_world = true
  /\ res (set_compression_pool_size (PyInt 4) Samples.shared_world) = Ok tt.
Proof. split; reflexivity. Qed.

(** In dedicated mode the argument is checked: a size below one and an
    argument that is no integer are refused before anything changes. *)
Example set_compression_pool_size_refused :
  set_compression_pool_size (PyInt 0) Samples.dedicated_world
  = mkOutcome (Raise ValueError) Samples.dedicated_world []
  /\ set_compression_pool_size PyNone Samples.dedicated_world
     = mkOutcome (Raise TypeError) Samples.dedicated_world [].
Proof. split; reflexivity. Qed.

(** From dedicated to shared mode the switch does install the shared pool
    and shuts the dedicated one down. *)
Example set_use_async_pool_shared :
  set_use_async_pool true Samples.dedicated_world
  = mkOutcome (Ok tt)
      (mkWorld true true 2 16 524288 false (Some ASYNC_ARCTIC) [mkThreadPool 2 false true])
      [Log info_using_common_async_pool].
Proof. reflexivity. Qed.

End CompressionFacts.

(** ** What the module keeps over any sequence of calls *)

Module CompressionMore.

Import Compression Api CompressionFacts.

(** *** States only evolve *)

Lemma evolves_refl (w : world) : evolves w w.
Proof.
  constructor; try reflexivity; try (intros; assumption).
  intros id tp Hid. exists tp. repeat split; auto.
Qed.

Lemma evolves_trans (w1 w2 w3 : world) :
  evolves w1 w2 -> evolves w2 w3 -> evolves w1 w3.
Proof.
  intros [N1 M1 B1 S1 H1] [N2 M2 B2 S2 H2]. constructor; try congruence.
  - intros Hs. apply S2, S1, Hs.
  - intros id tp Hid.
    destruct (H1 id tp Hid) as (tp2 & Hid2 & Hp2 & Hr2 & Hj2).
    destruct (H2 id tp2 Hid2) as (tp3 & Hid3 & Hp3 & Hr3 & Hj3).
    exists tp3. repeat split; [exact Hid3 | congruence | auto | auto].
Qed.

(** A state that differs from [w] in globals other than the thresholds,
    [BENCHMARK_MODE] and a set mode flag, and whose heap extends the heap of
    [w], evolves from [w]. *)
Lemma evolves_globals (w : world) (ep : bool) (shared : bool) (n : Z)
    (p : option pyobj) (more : list thread_pool) :
  (LZ4_USE_ASYNC_POOL w = true -> shared = true) ->
  evolves w (mkWorld ep shared n (LZ4_N_PARALLEL w) (LZ4_MINSZ_PARALLEL w)
               (BENCHMARK_MODE w) p (heap w ++ more)).
Proof.
  intros Hs. constructor; simpl; try reflexivity; [exact Hs |].
  intros id tp Hid. exists tp. repeat split; auto.
  rewrite lookup_app_l by (eapply lookup_lt_Some; exact Hid). exact Hid.
Qed.

(** Replacing a pool of the heap by one of the same size that is closed
    evolves the state. *)
Lemma evolves_shut (w : world) (id : nat) (tp tp' : thread_pool) :
  heap w !! id = Some tp ->
  processes tp' = processes tp ->
  running tp' = false ->
  (joined tp = true -> joined tp' = true) ->
  evolves w (with_heap (<[id := tp']> (heap w)) w).
Proof.
  intros Hid Hp Hr Hj. constructor; simpl; try reflexivity; [auto |].
  intros id0 tp0 Hid0. destruct (decide (id = id0)) as [<- | Hne].
  - exists tp'. rewrite list_lookup_insert_eq by (eapply lookup_lt_Some; exact Hid).
    assert (tp0 = tp) as -> by congruence. repeat split; auto.
  - exists tp0. rewrite list_lookup_insert_ne by exact Hne. repeat split; auto.
Qed.

Lemma preserves_ret {A : Type} (a : A) : preserves (ret a).
Proof. intros w. apply evolves_refl. Qed.

Lemma preserves_raise {A : Type} (e : exn) : preserves (@raise A e).
Proof. intros w. apply evolves_refl. Qed.

Lemma preserves_get : preserves get.
Proof. intros w. apply evolves_refl. Qed.

Lemma preserves_emit (e : event) : preserves (emit e).
Proof. intros w. apply evolves_refl. Qed.

Lemma preserves_bind {A B : Type} (m : M A) (k : A -> M B) :
  preserves m -> (forall a, preserves (k a)) -> preserves (bind m k).
Proof.
  intros Hm Hk w. unfold bind. destruct (res (m w)) as [a | e] eqn:Hres; simpl.
  - eapply evolves_trans; [apply Hm | apply Hk].
  - apply Hm.
Qed.

Lemma preserves_try_except {A : Type} (m h : M A) :
  preserves m -> preserves h -> preserves (try_except m h).
Proof.
  intros Hm Hh w. unfold try_except. destruct (res (m w)); simpl.
  - apply Hm.
  - eapply evolves_trans; [apply Hm | apply Hh].
Qed.

Lemma preserves_with_ENABLE_PARALLEL (b : bool) : preserves (modify (with_ENABLE_PARALLEL b)).
Proof.
  intros w. simpl. unfold with_ENABLE_PARALLEL.
  rewrite <- (app_nil_r (heap w)). apply evolves_globals. auto.
Qed.

Lemma preserves_with_LZ4_WORKERS (n : Z) : preserves (modify (with_LZ4_WORKERS n)).
Proof.
  intros w. simpl. unfold with_LZ4_WORKERS.
  rewrite <- (app_nil_r (heap w)). apply evolves_globals. auto.
Qed.

Lemma preserves_with_compress_thread_pool (p : option pyobj) :
  preserves (modify (with_compress_thread_pool p)).
Proof.
  intros w. simpl. unfold with_compress_thread_pool.
  rewrite <- (app_nil_r (heap w)). apply evolves_globals. auto.
Qed.

(** The mode flag is only ever stored as [True]. *)
Lemma preserves_with_LZ4_USE_ASYNC_POOL_true :
  preserves (modify (with_LZ4_USE_ASYNC_POOL true)).
Proof.
  intros w. simpl. unfold with_LZ4_USE_ASYNC_POOL.
  rewrite <- (app_nil_r (heap w)). apply evolves_globals. auto.
Qed.

Lemma preserves_ThreadPool_new (n : Z) : preserves (ThreadPool_new n).
Proof.
  intros w. unfold ThreadPool_new. destruct (n <? 1); simpl.
  - apply evolves_refl.
  - unfold with_heap. apply evolves_globals. auto.
Qed.

Lemma preserves_close (p : pyobj) : preserves (close p).
Proof.
  intros w. unfold close. destruct p as [| | id]; simpl; try apply evolves_refl.
  destruct (heap w !! id) as [tp |] eqn:Hid; simpl; [| apply evolves_refl].
  apply (evolves_shut w id tp); auto.
Qed.

Lemma preserves_join (p : pyobj) : preserves (join p).
Proof.
  intros w. unfold join. destruct p as [| | id]; simpl; try apply evolves_refl.
  destruct (heap w !! id) as [tp |] eqn:Hid; simpl; [| apply evolves_refl].
  destruct (running tp) eqn:Hrun; simpl; [apply evolves_refl |].
  apply (evolves_shut w id tp); auto.
Qed.

Lemma preserves__workers_pool (p : pyobj) : preserves (_workers_pool p).
Proof. destruct p; [apply preserves_ret | apply preserves_raise | apply preserves_raise]. Qed.

Lemma preserves_int (v : pyarg) : preserves (int v).
Proof.
  destruct v as [z | | [z | e]];
    first [apply preserves_ret | apply preserves_raise].
Qed.

Section Facts.

Context `{codec : Lz4}.

Lemma map__final (p : pyobj) (f : transform) (l : list block) (w : world) :
  final (map_ p f l w) = w.
Proof.
  unfold map_. destruct p as [| | id]; simpl; try reflexivity.
  destruct (heap w !! id) as [tp |]; simpl; [| reflexivity].
  destruct (running tp); reflexivity.
Qed.

Lemma preserves_map_ (p : pyobj) (f : transform) (l : list block) :
  preserves (map_ p f l).
Proof. intros w. rewrite map__final. apply evolves_refl. Qed.

Lemma preserves_call (f : transform) (s : block) : preserves (call f s).
Proof. intros w. apply evolves_refl. Qed.

Lemma preserves_comprehension (f : transform) (l : list block) :
  preserves (comprehension f l).
Proof. intros w. rewrite comprehension_final. apply evolves_refl. Qed.

End Facts.

(** Goals [preserves m], by the structure of [m]. *)
Ltac preserve :=
  repeat first
    [ apply preserves_ret | apply preserves_raise | apply preserves_get
    | apply preserves_emit | apply preserves_close | apply preserves_join
    | apply preserves_ThreadPool_new | apply preserves__workers_pool
    | apply preserves_int | apply preserves_map_ | apply preserves_call
    | apply preserves_comprehension
    | apply preserves_with_ENABLE_PARALLEL | apply preserves_with_LZ4_WORKERS
    | apply preserves_with_compress_thread_pool
    | apply preserves_with_LZ4_USE_ASYNC_POOL_true
    | apply preserves_try_except
    | apply preserves_bind; [| intros ?]
    | progress cbv zeta
    | match goal with
      | |- preserves (match ?x with _ => _ end) => destruct x
      end ].

Section Preserved.

Context `{codec : Lz4}.

Lemma preserves__init_thread_pool (use_async_pool : option bool) (pool_size : option Z) :
  preserves (_init_thread_pool use_async_pool pool_size).
Proof. unfold _init_thread_pool. preserve. Qed.

Lemma preserves__get_compression_pool : preserves _get_compression_pool.
Proof.
  unfold _get_compression_pool.
  repeat first [apply preserves__init_thread_pool | progress preserve].
Qed.

Lemma preserves_enable_parallel_lz4 (mode : bool) : preserves (enable_parallel_lz4 mode).
Proof. unfold enable_parallel_lz4. preserve. Qed.

Lemma preserves_set_compression_pool_size (pool_size : pyarg) :
  preserves (set_compression_pool_size pool_size).
Proof.
  unfold set_compression_pool_size.
  repeat first [apply preserves__init_thread_pool | progress preserve].
Qed.

Lemma preserves_set_use_async_pool (use_async_pool : bool) :
  preserves (set_use_async_pool use_async_pool).
Proof.
  unfold set_use_async_pool.
  repeat first [apply preserves__init_thread_pool | progress preserve].
Qed.

Lemma preserves_compress_array (str_list : list block) (withHC : bool) :
  preserves (compress_array str_list withHC).
Proof.
  unfold compress_array.
  repeat first [apply preserves__get_compression_pool | progress preserve].
Qed.

Lemma preserves_decompress_array (str_list : list block) :
  preserves (decompress_array str_list).
Proof.
  unfold decompress_array.
  repeat first [apply preserves__get_compression_pool | progress preserve].
Qed.

Lemma evolves_after (c : api_call) (w : world) : evolves w (after c w).
Proof.
  destruct c; simpl.
  - apply preserves_enable_parallel_lz4.
  - apply preserves_set_compression_pool_size.
  - apply preserves_set_use_async_pool.
  - apply preserves_compress_array.
  - apply preserves_compress_array.
  - apply preserves_decompress_array.
  - apply evolves_refl.
  - apply evolves_refl.
  - apply evolves_refl.
Qed.

Lemma evolves_after_all (cs : list api_call) (w : world) : evolves w (after_all cs w).
Proof.
  revert w. induction cs as [| c cs IH]; intros w; simpl.
  - apply evolves_refl.
  - eapply evolves_trans; [apply evolves_after | apply IH].
Qed.

(** X1.  Whatever calls are made, in whatever order and whether they return
    or raise, the module never changes [LZ4_N_PARALLEL],
    [LZ4_MINSZ_PARALLEL] or [BENCHMARK_MODE], and never clears
    [LZ4_USE_ASYNC_POOL] once it is set: no call leads from shared mode back
    to dedicated mode. *)
Theorem calls_keep_thresholds_and_shared_mode (cs : list api_call) (w : world) :
  LZ4_N_PARALLEL (after_all cs w) = LZ4_N_PARALLEL w
  /\ LZ4_MINSZ_PARALLEL (after_all cs w) = LZ4_MINSZ_PARALLEL w
  /\ BENCHMARK_MODE (after_all cs w) = BENCHMARK_MODE w
  /\ (LZ4_USE_ASYNC_POOL w = true -> LZ4_USE_ASYNC_POOL (after_all cs w) = true).
Proof.
  destruct (evolves_after_all cs w) as [HN HM HB HS _]. repeat split; assumption.
Qed.

End Preserved.

(** *** Healthy states *)

Lemma with_heap_same (w : world) : with_heap (heap w) w = w.
Proof. destruct w; reflexivity. Qed.

Lemma length_drained (w : world) : length (drained w) = length (heap w).
Proof.
  unfold drained. destruct (_compress_thread_pool w) as [[| | id] |]; try reflexivity.
  destruct (LZ4_USE_ASYNC_POOL w); [reflexivity |].
  destruct (heap w !! id); [apply length_insert | reflexivity].
Qed.

Lemma healthy_workers (w : world) : healthy w = true -> 1 <= LZ4_WORKERS w.
Proof.
  unfold healthy. intros H. apply andb_true_iff in H as [H _].
  apply Z.leb_le. exact H.
Qed.

Section Healthy.

Context `{codec : Lz4}.

(** On a healthy state the drain of [_init_thread_pool] succeeds: its
    handler does not run. *)
Lemma drain_healthy (w : world) (h : M unit) :
  healthy w = true ->
  match _compress_thread_pool w with
  | Some p =>
      if negb (LZ4_USE_ASYNC_POOL w)
      then try_except (close p ;; join p) h
      else ret tt
  | None => ret tt
  end w
  = mkOutcome (Ok tt) (with_heap (drained w) w) [].
Proof.
  unfold healthy, drained. intros H. apply andb_true_iff in H as [_ H].
  destruct (_compress_thread_pool w) as [[| | id] |].
  - rewrite H. simpl. unfold ret. rewrite with_heap_same. reflexivity.
  - discriminate H.
  - destruct (LZ4_USE_ASYNC_POOL w); simpl.
    + unfold ret. rewrite with_heap_same. reflexivity.
    + destruct (heap w !! id) as [tp |] eqn:Hid; [| discriminate H].
      apply (drain_ThreadPool w id tp h Hid).
  - unfold ret. rewrite with_heap_same. reflexivity.
Qed.

(** What [_init_thread_pool] does on a healthy state. *)
Lemma init_healthy (w : world) (use_async_pool : option bool) (pool_size : option Z) :
  healthy w = true ->
  _init_thread_pool use_async_pool pool_size w
  = if default (LZ4_USE_ASYNC_POOL w) use_async_pool
    then mkOutcome (Ok tt)
           (mkWorld (ENABLE_PARALLEL w) true (LZ4_WORKERS w) (LZ4_N_PARALLEL w)
              (LZ4_MINSZ_PARALLEL w) (BENCHMARK_MODE w) (Some ASYNC_ARCTIC) (drained w))
           [Log info_using_common_async_pool]
    else mkOutcome (Ok tt)
           (mkWorld (ENABLE_PARALLEL w) (LZ4_USE_ASYNC_POOL w)
              (default (LZ4_WORKERS w) pool_size) (LZ4_N_PARALLEL w)
              (LZ4_MINSZ_PARALLEL w) (BENCHMARK_MODE w)
              (Some (ThreadPool (length (heap w))))
              (drained w ++ [mkThreadPool (LZ4_WORKERS w) true false]))
           [Log (info_using_separate_pool (LZ4_WORKERS w))].
Proof.
  intros H. pose proof (healthy_workers w H) as Hpos.
  unfold _init_thread_pool. rewrite bind_get. cbv zeta.
  unfold bind at 1. rewrite (drain_healthy w _ H). simpl.
  destruct (default (LZ4_USE_ASYNC_POOL w) use_async_pool).
  - reflexivity.
  - unfold bind, emit, modify, ThreadPool_new; simpl.
    destruct (LZ4_WORKERS w <? 1) eqn:Hlt; [apply Z.ltb_lt in Hlt; lia |].
    simpl. rewrite length_drained. reflexivity.
Qed.

Lemma healthy_init (w : world) (use_async_pool : option bool) (pool_size : option Z) :
  healthy w = true ->
  1 <= default (LZ4_WORKERS w) pool_size ->
  healthy (final (_init_thread_pool use_async_pool pool_size w)) = true.
Proof.
  intros H Hsize. pose proof (healthy_workers w H) as Hpos.
  rewrite (init_healthy w _ _ H).
  destruct (default (LZ4_USE_ASYNC_POOL w) use_async_pool); unfold healthy; simpl.
  - apply andb_true_iff. split; [apply Z.leb_le; exact Hpos | reflexivity].
  - apply andb_true_iff. split; [apply Z.leb_le; exact Hsize |].
    rewrite <- (length_drained w).
    rewrite list_lookup_middle by reflexivity. reflexivity.
Qed.

Lemma bind_ret {A B : Type} (a : A) (k : A -> M B) (w : world) :
  bind (ret a) k w = k a w.
Proof. unfold bind, ret; simpl. destruct (k a w); reflexivity. Qed.

Lemma final_bind_frame {A B : Type} (m : M A) (k : A -> M B) (w : world) :
  (forall a w', final (k a w') = w') -> final (bind m k w) = final (m w).
Proof.
  intros Hk. unfold bind. destruct (res (m w)); simpl; [apply Hk | reflexivity].
Qed.

(** [_get_compression_pool()] changes the state only through the
    [_init_thread_pool()] of its first call. *)
Lemma get_pool_final (w : world) :
  final (_get_compression_pool w)
  = match _compress_thread_pool w with
    | None => final (_init_thread_pool None None w)
    | Some _ => w
    end.
Proof.
  unfold _get_compression_pool. rewrite bind_emit. cbn [final]. rewrite bind_get.
  destruct (_compress_thread_pool w) as [p |] eqn:Hp.
  - rewrite bind_ret, bind_get, Hp.
    destruct (LZ4_USE_ASYNC_POOL w); [destruct p |]; reflexivity.
  - rewrite final_bind_frame; [reflexivity |].
    intros [] w'. rewrite bind_get.
    destruct (_compress_thread_pool w') as [p |]; [| reflexivity].
    destruct (LZ4_USE_ASYNC_POOL w'); [destruct p |]; reflexivity.
Qed.

Lemma compress_array_final (l : list block) (withHC : bool) (w : world) :
  final (compress_array l withHC w) = w
  \/ final (compress_array l withHC w) = final (_get_compression_pool w).
Proof.
  unfold compress_array. destruct l as [| s0 l]; [left; reflexivity |].
  rewrite bind_get.
  destruct (BENCHMARK_MODE w || _).
  - right. apply final_bind_frame. intros p w'. apply map__final.
  - left. apply comprehension_final.
Qed.

Lemma decompress_array_final (l : list block) (w : world) :
  final (decompress_array l w) = w
  \/ final (decompress_array l w) = final (_get_compression_pool w).
Proof.
  unfold decompress_array. destruct l as [| s0 l]; [left; reflexivity |].
  rewrite bind_get.
  destruct (negb (ENABLE_PARALLEL w) || _).
  - left. apply comprehension_final.
  - right. apply final_bind_frame. intros p w'. apply map__final.
Qed.

Lemma healthy_get_pool (w : world) :
  healthy w = true -> healthy (final (_get_compression_pool w)) = true.
Proof.
  intros H. rewrite get_pool_final.
  destruct (_compress_thread_pool w); [exact H |].
  apply healthy_init; [exact H | simpl; apply healthy_workers; exact H].
Qed.

Lemma healthy_after (c : api_call) (w : world) :
  healthy w = true -> healthy (after c w) = true.
Proof.
  intros H. pose proof (healthy_workers w H) as Hpos.
  destruct c as [mode | pool_size | use_async_pool | l hc | l | l | s | s | s];
    cbn [after]; try exact H.
  - (* set_compression_pool_size *)
    unfold set_compression_pool_size. rewrite bind_get.
    destruct (LZ4_USE_ASYNC_POOL w); [exact H |].
    destruct pool_size as [n | | [n | e]]; try exact H.
    all: unfold int; rewrite bind_ret.
    all: destruct (n <? 1) eqn:Hn; [exact H |].
    all: destruct (LZ4_WORKERS w =? n); [exact H |].
    all: apply (healthy_init w None (Some n) H); simpl; apply Z.ltb_ge in Hn; exact Hn.
  - (* set_use_async_pool *)
    unfold set_use_async_pool. rewrite bind_get.
    destruct (Bool.eqb (LZ4_USE_ASYNC_POOL w) use_async_pool); [exact H |].
    apply healthy_init; [exact H | exact Hpos].
  - destruct (compress_array_final l hc w) as [-> | ->];
      [exact H | apply healthy_get_pool; exact H].
  - unfold compressHC_array.
    destruct (compress_array_final l true w) as [-> | ->];
      [exact H | apply healthy_get_pool; exact H].
  - destruct (decompress_array_final l w) as [-> | ->];
      [exact H | apply healthy_get_pool; exact H].
Qed.

(** X3.  From a healthy state, such as the state the module starts in, every
    sequence of calls leads to a healthy state: [LZ4_WORKERS] stays at
    least 1, [ASYNC_ARCTIC] is bound only in shared mode, and a [ThreadPool]
    bound to [_compress_thread_pool] is on the heap and still accepts work,
    so it is never a pool the module has closed. *)
Theorem calls_keep_healthy (cs : list api_call) (w : world) :
  healthy w = true -> healthy (after_all cs w) = true.
Proof.
  revert w. induction cs as [| c cs IH]; intros w H; simpl; [exact H |].
  apply IH, healthy_after, H.
Qed.

(** *** The pool a batch gets *)

(** With [_compress_thread_pool] bound, [_get_compression_pool()] changes
    nothing. *)
Lemma get_pool_bound (w : world) (p : pyobj) :
  _compress_thread_pool w = Some p ->
  _get_compression_pool w
  = mkOutcome
      (if LZ4_USE_ASYNC_POOL w
       then match p with
            | ASYNC_ARCTIC => Ok ASYNC_ARCTIC_workers_pool
            | _ => Raise AttributeError
            end
       else Ok p)
      w [GetPool].
Proof.
  intros Hp. unfold _get_compression_pool.
  rewrite bind_emit, bind_get, Hp, bind_ret, bind_get, Hp.
  destruct (LZ4_USE_ASYNC_POOL w); [destruct p |]; reflexivity.
Qed.

(** The first call in shared mode binds [ASYNC_ARCTIC]. *)
Lemma get_pool_lazy_shared (w : world) :
  _compress_thread_pool w = None ->
  LZ4_USE_ASYNC_POOL w = true ->
  _get_compression_pool w
  = mkOutcome (Ok ASYNC_ARCTIC_workers_pool)
      (mkWorld (ENABLE_PARALLEL w) true (LZ4_WORKERS w) (LZ4_N_PARALLEL w)
         (LZ4_MINSZ_PARALLEL w) (BENCHMARK_MODE w) (Some ASYNC_ARCTIC) (heap w))
      [GetPool; Log info_using_common_async_pool].
Proof.
  intros Hnone Hshared.
  unfold _get_compression_pool, _init_thread_pool.
  rewrite bind_emit, bind_get, Hnone.
  unfold bind, get, ret, emit, modify; simpl.
  rewrite Hnone, Hshared; simpl. reflexivity.
Qed.

(** The first call in dedicated mode with an invalid [LZ4_WORKERS] raises
    and binds nothing. *)
Lemma get_pool_lazy_refused (w : world) :
  _compress_thread_pool w = None ->
  LZ4_USE_ASYNC_POOL w = false ->
  LZ4_WORKERS w < 1 ->
  _get_compression_pool w
  = mkOutcome (Raise ValueError) w
      [GetPool; Log (info_using_separate_pool (LZ4_WORKERS w))].
Proof.
  intros Hnone Hded Hlt. apply Z.ltb_lt in Hlt.
  unfold _get_compression_pool, _init_thread_pool.
  rewrite bind_emit, bind_get, Hnone.
  unfold bind, get, ret, emit, modify, ThreadPool_new; simpl.
  rewrite Hnone, Hded; simpl. rewrite Hlt. reflexivity.
Qed.

(** X4.  [_get_compression_pool()] creates a pool at most once: after a call
    that returned a pool, a second call returns the same pool, changes
    nothing and logs nothing. *)
Theorem get_compression_pool_again (w : world) (p : pyobj) :
  res (_get_compression_pool w) = Ok p ->
  _get_compression_pool (final (_get_compression_pool w))
  = mkOutcome (Ok p) (final (_get_compression_pool w)) [GetPool].
Proof.
  destruct (_compress_thread_pool w) as [q |] eqn:Hq.
  - rewrite (get_pool_bound w q Hq). cbn [res final]. intros Hres.
    rewrite (get_pool_bound w q Hq), Hres. reflexivity.
  - destruct (LZ4_USE_ASYNC_POOL w) eqn:Hflag.
    + rewrite (get_pool_lazy_shared w Hq Hflag). cbn [res final].
      intros [= <-]. reflexivity.
    + destruct (Z_lt_le_dec (LZ4_WORKERS w) 1) as [Hlt | Hpos].
      * rewrite (get_pool_lazy_refused w Hq Hflag Hlt). discriminate.
      * rewrite (get_pool_lazy_init w Hq Hflag Hpos). cbn [res final].
        intros [= <-]. reflexivity.
Qed.

(** A batch call changes none of the six configuration globals and touches
    no pool that exists: the heap grows by at most one pool. *)
Lemma get_pool_frame (w : world) :
  same_config w (final (_get_compression_pool w))
  /\ exists more, heap (final (_get_compression_pool w)) = heap w ++ more
                  /\ (length more <= 1)%nat.
Proof.
  destruct (_compress_thread_pool w) as [q |] eqn:Hq.
  - rewrite (get_pool_bound w q Hq). cbn [final].
    split; [repeat split |]. exists []. rewrite app_nil_r. split; [reflexivity | simpl; lia].
  - destruct (LZ4_USE_ASYNC_POOL w) eqn:Hflag.
    + rewrite (get_pool_lazy_shared w Hq Hflag). cbn [final].
      split; [repeat split; simpl; congruence |].
      exists []. simpl. rewrite app_nil_r. split; [reflexivity | lia].
    + destruct (Z_lt_le_dec (LZ4_WORKERS w) 1) as [Hlt | Hpos].
      * rewrite (get_pool_lazy_refused w Hq Hflag Hlt). cbn [final].
        split; [repeat split |]. exists []. rewrite app_nil_r.
        split; [reflexivity | simpl; lia].
      * rewrite (get_pool_lazy_init w Hq Hflag Hpos). cbn [final].
        split; [repeat split; simpl; congruence |].
        eexists. simpl. split; [reflexivity | simpl; lia].
Qed.

Lemma frame_refl (w : world) :
  same_config w w /\ exists more, heap w = heap w ++ more /\ (length more <= 1)%nat.
Proof.
  split; [repeat split |]. exists []. rewrite app_nil_r. split; [reflexivity | simpl; lia].
Qed.

(** X5.  [compress_array] and [decompress_array] change none of the six
    configuration globals, whatever path they take and whether they return
    or raise, and they leave every existing pool as it is: the heap after
    the call is the heap before it, followed by at most one new pool. *)
Theorem batch_calls_keep_config (l : list block) (withHC : bool) (w : world) :
  (same_config w (final (compress_array l withHC w))
   /\ exists more, heap (final (compress_array l withHC w)) = heap w ++ more
                   /\ (length more <= 1)%nat)
  /\ (same_config w (final (decompress_array l w))
      /\ exists more, heap (final (decompress_array l w)) = heap w ++ more
                      /\ (length more <= 1)%nat).
Proof.
  split.
  - destruct (compress_array_final l withHC w) as [-> | ->];
      [apply frame_refl | apply get_pool_frame].
  - destruct (decompress_array_final l w) as [-> | ->];
      [apply frame_refl | apply get_pool_frame].
Qed.

(** *** What a batch returns *)

Lemma bind_res_Ok {A B : Type} (m : M A) (k : A -> M B) (w : world) (b : B) :
  res (bind m k w) = Ok b ->
  exists a, res (m w) = Ok a /\ res (k a (final (m w))) = Ok b.
Proof.
  unfold bind. destruct (res (m w)) as [a | e]; simpl; [| discriminate].
  intros H. exists a. split; [reflexivity | exact H].
Qed.

Lemma map__res_Ok (p : pyobj) (f : transform) (l out : list block) (w : world) :
  res (map_ p f l w) = Ok out -> results f l = Ok out.
Proof.
  unfold map_. destruct p as [| | id]; simpl; try discriminate; [auto |].
  destruct (heap w !! id) as [tp |]; simpl; [| discriminate].
  destruct (running tp); simpl; [auto | discriminate].
Qed.

Lemma results_Ok (f : transform) (l out : list block) :
  results f l = Ok out <-> Forall2 (fun s y => run f s = Some y) l out.
Proof.
  unfold results. rewrite <- mapM_Some.
  destruct (mapM (run f) l); split; intros H; congruence.
Qed.

Lemma compress_array_res_Ok (w : world) (l out : list block) (withHC : bool) :
  res (compress_array l withHC w) = Ok out ->
  results (if withHC then lz4_compressHC else lz4_compress) l = Ok out.
Proof.
  unfold compress_array. destruct l as [| s0 l].
  - intros [= <-]. reflexivity.
  - rewrite bind_get. destruct (BENCHMARK_MODE w || _).
    + intros H. apply bind_res_Ok in H as (p & _ & H).
      exact (map__res_Ok _ _ _ _ _ H).
    + rewrite comprehension_res. auto.
Qed.

Lemma decompress_array_res_Ok (w : world) (l out : list block) :
  res (decompress_array l w) = Ok out -> results lz4_decompress l = Ok out.
Proof.
  unfold decompress_array. destruct l as [| s0 l].
  - intros [= <-]. reflexivity.
  - rewrite bind_get. destruct (negb (ENABLE_PARALLEL w) || _).
    + rewrite comprehension_res. auto.
    + intros H. apply bind_res_Ok in H as (p & _ & H).
      exact (map__res_Ok _ _ _ _ _ H).
Qed.

(** X6.  Whenever [compress_array] returns, on whatever state and by
    whatever path, sequential or pool, the list it returns has the length of
    the batch and holds at each index the compression of the chunk at that
    index, with [lz4_compressHC] under [withHC] and [lz4_compress]
    otherwise. *)
Theorem compress_array_in_order (w : world) (l out : list block) (withHC : bool) :
  res (compress_array l withHC w) = Ok out ->
  length out = length l
  /\ forall (i : nat) (s : block),
       l !! i = Some s ->
       exists y, out !! i = Some y
                 /\ run (if withHC then lz4_compressHC else lz4_compress) s = Some y.
Proof.
  intros H. apply compress_array_res_Ok, results_Ok in H.
  split; [symmetry; exact (Forall2_length _ _ _ H) |].
  intros i s Hi. destruct (Forall2_lookup_l _ _ _ _ _ H Hi) as (y & Hy & Hrun).
  exists y. split; assumption.
Qed.

(** X7.  Whenever [decompress_array] returns, on whatever state and by
    whatever path, the list it returns has the length of the batch and holds
    at each index the decompression of the chunk at that index. *)
Theorem decompress_array_in_order (w : world) (l out : list block) :
  res (decompress_array l w) = Ok out ->
  length out = length l
  /\ forall (i : nat) (s : block),
       l !! i = Some s ->
       exists y, out !! i = Some y /\ run lz4_decompress s = Some y.
Proof.
  intros H. apply decompress_array_res_Ok, results_Ok in H.
  split; [symmetry; exact (Forall2_length _ _ _ H) |].
  intros i s Hi. destruct (Forall2_lookup_l _ _ _ _ _ H Hi) as (y & Hy & Hrun).
  exists y. split; assumption.
Qed.

Lemma results_round_trip (f : transform) (l out : list block) :
  round_trips codec ->
  f = lz4_compress \/ f = lz4_compressHC ->
  results f l = Ok out -> results lz4_decompress out = Ok l.
Proof.
  intros Hrt Hf H. apply results_Ok in H. apply results_Ok.
  apply Forall2_flip. eapply Forall2_impl; [exact H |].
  intros s y Hrun. apply Hrt. destruct Hf as [-> | ->]; [left | right]; exact Hrun.
Qed.

(** *** Usable states *)

Lemma usable_healthy (w : world) : usable w = true -> healthy w = true.
Proof. unfold usable. intros H. apply andb_true_iff in H as [H _]. exact H. Qed.

(** On a usable state [_get_compression_pool()] returns a pool that serves
    [map]. *)
Lemma get_pool_usable (w : world) :
  usable w = true ->
  exists p, res (_get_compression_pool w) = Ok p
            /\ forall f l,
                 map_ p f l (final (_get_compression_pool w))
                 = mkOutcome (results f l) (final (_get_compression_pool w))
                     [PoolMap p f l].
Proof.
  intros H. pose proof (usable_healthy w H) as Hh.
  pose proof (healthy_workers w Hh) as Hpos.
  unfold usable in H. apply andb_true_iff in H as [_ H].
  unfold healthy in Hh. apply andb_true_iff in Hh as [_ Hh].
  destruct (_compress_thread_pool w) as [[| | id] |] eqn:Hp.
  - rewrite (get_pool_bound w _ Hp), Hh. cbn [res final].
    exists ASYNC_ARCTIC_workers_pool. split; reflexivity.
  - discriminate Hh.
  - apply negb_true_iff in H.
    rewrite (get_pool_bound w _ Hp), H. cbn [res final].
    exists (ThreadPool id). split; [reflexivity |]. intros f l.
    unfold map_. destruct (heap w !! id) as [tp |]; [| discriminate Hh].
    rewrite Hh. reflexivity.
  - destruct (LZ4_USE_ASYNC_POOL w) eqn:Hflag.
    + rewrite (get_pool_lazy_shared w Hp Hflag). cbn [res final].
      exists ASYNC_ARCTIC_workers_pool. split; reflexivity.
    + rewrite (get_pool_lazy_init w Hp Hflag Hpos). cbn [res final].
      exists (ThreadPool (length (heap w))). split; [reflexivity |]. intros f l.
      unfold map_. cbn [heap]. rewrite list_lookup_middle by reflexivity. reflexivity.
Qed.

Lemma via_pool_usable (f : transform) (l : list block) (w : world) :
  usable w = true ->
  res (bind _get_compression_pool (fun pool => map_ pool f l) w) = results f l.
Proof.
  intros H. destruct (get_pool_usable w H) as (p & Hres & Hmap).
  rewrite (bind_Ok _ _ _ p Hres). cbn [res]. rewrite Hmap. reflexivity.
Qed.

Lemma compress_array_res_usable (w : world) (l : list block) (withHC : bool) :
  usable w = true ->
  res (compress_array l withHC w)
  = results (if withHC then lz4_compressHC else lz4_compress) l.
Proof.
  intros H. unfold compress_array.
  destruct l as [| s0 l]; [destruct withHC; reflexivity |].
  rewrite bind_get. destruct (BENCHMARK_MODE w || _).
  - apply via_pool_usable, H.
  - apply comprehension_res.
Qed.

Lemma decompress_array_res_usable (w : world) (l : list block) :
  usable w = true ->
  res (decompress_array l w) = results lz4_decompress l.
Proof.
  intros H. unfold decompress_array. destruct l as [| s0 l]; [reflexivity |].
  rewrite bind_get. destruct (negb (ENABLE_PARALLEL w) || _).
  - apply comprehension_res.
  - apply via_pool_usable, H.
Qed.

(** X8.  On a usable state the result of a batch call does not depend on the
    path it takes: through the pool or on the calling thread,
    [compress_array] and [decompress_array] return the list of the
    transformed chunks in input order, or raise the codec's error when the
    codec rejects a chunk, and nothing else. *)
Theorem batch_result_on_usable_state (w : world) (l : list block) (withHC : bool) :
  usable w = true ->
  res (compress_array l withHC w)
  = results (if withHC then lz4_compressHC else lz4_compress) l
  /\ res (decompress_array l w) = results lz4_decompress l.
Proof.
  intros H. split;
    [apply compress_array_res_usable, H | apply decompress_array_res_usable, H].
Qed.

(** X9.  With a codec whose decompression undoes its compressions, a batch
    that [compress_array] returned decompresses to the original batch:
    whatever [decompress_array] returns on it, on any state, is the original
    list, and on a usable state [decompress_array] does return it. *)
Theorem round_trip (w w' : world) (l out : list block) (withHC : bool) :
  round_trips codec ->
  res (compress_array l withHC w) = Ok out ->
  (forall back, res (decompress_array out w') = Ok back -> back = l)
  /\ (usable w' = true -> res (decompress_array out w') = Ok l).
Proof.
  intros Hrt Hc. apply compress_array_res_Ok in Hc.
  assert (Hback : results lz4_decompress out = Ok l).
  { apply (results_round_trip (if withHC then lz4_compressHC else lz4_compress)
             l out Hrt); [| exact Hc].
    destruct withHC; [right | left]; reflexivity. }
  split.
  - intros back Hd. apply decompress_array_res_Ok in Hd. congruence.
  - intros Hu. rewrite (decompress_array_res_usable w' out Hu). exact Hback.
Qed.

Lemma usable_init (w : world) (use_async_pool : option bool) (pool_size : option Z) :
  usable w = true ->
  (default (LZ4_USE_ASYNC_POOL w) use_async_pool = false -> LZ4_USE_ASYNC_POOL w = false) ->
  1 <= default (LZ4_WORKERS w) pool_size ->
  usable (final (_init_thread_pool use_async_pool pool_size w)) = true.
Proof.
  intros H Hmode Hsize. pose proof (usable_healthy w H) as Hh.
  unfold usable. apply andb_true_iff. split; [apply healthy_init; assumption |].
  rewrite (init_healthy w _ _ Hh).
  destruct (default (LZ4_USE_ASYNC_POOL w) use_async_pool); [reflexivity |].
  cbn [final _compress_thread_pool LZ4_USE_ASYNC_POOL].
  rewrite Hmode by reflexivity. reflexivity.
Qed.

Lemma usable_get_pool (w : world) :
  usable w = true -> usable (final (_get_compression_pool w)) = true.
Proof.
  intros H. rewrite get_pool_final.
  destruct (_compress_thread_pool w); [exact H |].
  apply usable_init; [exact H | auto |].
  simpl. apply healthy_workers, usable_healthy, H.
Qed.

(** Every call keeps a usable state usable, except
    [set_use_async_pool(False)] made in shared mode. *)
Lemma usable_after (c : api_call) (w : world) :
  usable w = true ->
  (c = call_set_use_async_pool false -> LZ4_USE_ASYNC_POOL w = false) ->
  usable (after c w) = true.
Proof.
  intros H Hc. pose proof (healthy_workers w (usable_healthy w H)) as Hpos.
  destruct c as [mode | pool_size | use_async_pool | l hc | l | l | s | s | s];
    cbn [after]; try exact H.
  - (* set_compression_pool_size *)
    unfold set_compression_pool_size. rewrite bind_get.
    destruct (LZ4_USE_ASYNC_POOL w) eqn:Hflag; [exact H |].
    destruct pool_size as [n | | [n | e]]; try exact H.
    all: unfold int; rewrite bind_ret.
    all: destruct (n <? 1) eqn:Hn; [exact H |].
    all: destruct (LZ4_WORKERS w =? n); [exact H |].
    all: apply (usable_init w None (Some n) H); [intros _; exact Hflag |].
    all: simpl; apply Z.ltb_ge in Hn; exact Hn.
  - (* set_use_async_pool *)
    unfold set_use_async_pool. rewrite bind_get.
    destruct (Bool.eqb (LZ4_USE_ASYNC_POOL w) use_async_pool) eqn:Heq; [exact H |].
    apply (usable_init w (Some use_async_pool) None H); [| exact Hpos].
    simpl. intros ->. apply Hc. reflexivity.
  - destruct (compress_array_final l hc w) as [-> | ->];
      [exact H | apply usable_get_pool; exact H].
  - unfold compressHC_array.
    destruct (compress_array_final l true w) as [-> | ->];
      [exact H | apply usable_get_pool; exact H].
  - destruct (decompress_array_final l w) as [-> | ->];
      [exact H | apply usable_get_pool; exact H].
Qed.

(** X10.  A usable state stays usable over every sequence of calls that does
    not contain [set_use_async_pool(False)], and also over a
    [set_use_async_pool(False)] made in dedicated mode: only the switch from
    shared mode back to a dedicated pool leaves a state on which the pool
    path raises. *)
Theorem calls_keep_usable (cs : list api_call) (w : world) :
  usable w = true ->
  (Forall (fun c => c <> call_set_use_async_pool false) cs ->
   usable (after_all cs w) = true)
  /\ (LZ4_USE_ASYNC_POOL w = false ->
      usable (after (call_set_use_async_pool false) w) = true).
Proof.
  intros H. split.
  - revert w H. induction cs as [| c cs IH]; intros w H Hcs; simpl; [exact H |].
    apply Forall_cons in Hcs as [Hc Hcs].
    apply IH; [| exact Hcs]. apply usable_after; [exact H |].
    intros ->. contradiction.
  - intros Hflag. apply usable_after; [exact H | intros _; exact Hflag].
Qed.

(** *** The sequential path and the setters *)

(** X13.  From a healthy state in dedicated mode [set_use_async_pool(True)]
    returns normally and installs the shared pool: the mode flag is set,
    [ASYNC_ARCTIC] is bound, the [ThreadPool] that was bound is closed and
    joined, no shutdown failure is logged, and the pool that batches get
    from then on is [ASYNC_ARCTIC._workers_pool]. *)
Theorem set_use_async_pool_installs_shared (w : world) :
  healthy w = true ->
  LZ4_USE_ASYNC_POOL w = false ->
  res (set_use_async_pool true w) = Ok tt
  /\ events (set_use_async_pool true w) = [Log info_using_common_async_pool]
  /\ LZ4_USE_ASYNC_POOL (final (set_use_async_pool true w)) = true
  /\ _compress_thread_pool (final (set_use_async_pool true w)) = Some ASYNC_ARCTIC
  /\ (forall id, _compress_thread_pool w = Some (ThreadPool id) ->
      exists tp, heap (final (set_use_async_pool true w)) !! id = Some tp
                 /\ running tp = false /\ joined tp = true)
  /\ _get_compression_pool (final (set_use_async_pool true w))
     = mkOutcome (Ok ASYNC_ARCTIC_workers_pool) (final (set_use_async_pool true w))
         [GetPool].
Proof.
  intros H Hded.
  assert (Hrun : set_use_async_pool true w = _init_thread_pool (Some true) None w).
  { unfold set_use_async_pool. rewrite bind_get, Hded. reflexivity. }
  rewrite Hrun, (init_healthy w _ _ H). cbn [default res final events].
  repeat split.
  intros id Hp. cbn [heap]. unfold drained. rewrite Hp, Hded.
  unfold healthy in H. apply andb_true_iff in H as [_ H]. rewrite Hp in H.
  destruct (heap w !! id) as [tp |] eqn:Hid; [| discriminate H].
  eexists. split; [apply list_lookup_insert_eq; eapply lookup_lt_Some; exact Hid |].
  split; reflexivity.
Qed.

(** X14.  [enable_parallel_lz4(mode)] changes [ENABLE_PARALLEL] and nothing
    else, and the batches that follow obey it as the two functions read it:
    [decompress_array] asks for the pool exactly when [mode] holds and the
    batch has more than [LZ4_N_PARALLEL] chunks, and with [mode] on,
    [compress_array] with high compression asks for the pool on every
    non-empty batch. *)
Theorem enable_parallel_lz4_then_batch (mode : bool) (w : world)
    (s0 : block) (l : list block) :
  final (enable_parallel_lz4 mode w) = with_ENABLE_PARALLEL mode w
  /\ (GetPool ∈ events (decompress_array (s0 :: l) (final (enable_parallel_lz4 mode w)))
      <-> mode = true /\ LZ4_N_PARALLEL w < len (s0 :: l))
  /\ (mode = true ->
      GetPool ∈ events (compress_array (s0 :: l) true (final (enable_parallel_lz4 mode w)))).
Proof.
  split; [reflexivity |]. split.
  - rewrite decompress_array_pool_iff. reflexivity.
  - intros ->. apply compress_array_pool_iff. right. left. split; reflexivity.
Qed.

(** *** The two paths of a batch *)

Lemma comprehension_rejected (f : transform) (l1 : list block) (s : block)
    (l2 : list block) (w : world) :
  Forall (fun c => is_Some (run f c)) l1 ->
  run f s = None ->
  res (comprehension f (l1 ++ s :: l2) w) = Raise Lz4Error
  /\ events (comprehension f (l1 ++ s :: l2) w) = Call f <$> (l1 ++ [s]).
Proof.
  intros Hl1 Hs. induction Hl1 as [| c l1 [y Hc] _ IH]; simpl.
  - unfold bind, call; simpl. rewrite Hs. split; reflexivity.
  - destruct IH as [IHres IHev].
    assert (Hcall : call f c w = mkOutcome (Ok y) w [Call f c])
      by (unfold call; rewrite Hc; reflexivity).
    rewrite (bind_Ok _ _ _ y) by (rewrite Hcall; reflexivity).
    rewrite Hcall. cbn [res final events].
    rewrite (bind_Raise _ _ _ Lz4Error IHres). cbn [res events].
    rewrite IHev. split; reflexivity.
Qed.

Lemma sequential_comprehension (f : transform) (l : list block) (w : world) :
  sequential f l w (comprehension f l w).
Proof.
  split; [apply comprehension_final |]. split.
  - intros out Hout. rewrite comprehension_res. split; [exact Hout |].
    apply (comprehension_events_Ok f l out). rewrite comprehension_res. exact Hout.
  - intros l1 s l2 -> Hl1 Hs. apply comprehension_rejected; assumption.
Qed.

Lemma comprehension_no_PoolMap (f g : transform) (l items : list block)
    (p : pyobj) (w : world) :
  PoolMap p g items ∉ events (comprehension f l w).
Proof.
  intros Hin.
  destruct (comprehension_events_prefix f l w) as [rest Hrest].
  assert (Hin' : PoolMap p g items ∈ Call f <$> l).
  { rewrite Hrest. apply elem_of_app. left. exact Hin. }
  apply list_elem_of_fmap in Hin' as (c & Hc & _). discriminate Hc.
Qed.

Lemma get_pool_administrative (w : world) :
  Forall administrative (events (_get_compression_pool w)).
Proof.
  destruct (_compress_thread_pool w) as [q |] eqn:Hq.
  - rewrite (get_pool_bound w q Hq). repeat constructor.
  - destruct (LZ4_USE_ASYNC_POOL w) eqn:Hflag.
    + rewrite (get_pool_lazy_shared w Hq Hflag). repeat constructor.
    + destruct (Z_lt_le_dec (LZ4_WORKERS w) 1) as [Hlt | Hpos].
      * rewrite (get_pool_lazy_refused w Hq Hflag Hlt). repeat constructor.
      * rewrite (get_pool_lazy_init w Hq Hflag Hpos). repeat constructor.
Qed.

(** On a usable state the pool path maps the whole batch, once. *)
Lemma through_pool_usable (f : transform) (l : list block) (w : world) :
  usable w = true ->
  through_pool f l w (bind _get_compression_pool (fun pool => map_ pool f l) w).
Proof.
  intros H. destruct (get_pool_usable w H) as (p & Hres & Hmap).
  exists p. rewrite (bind_Ok _ _ _ p Hres), Hmap. cbn [res final events].
  split; [exact Hres |]. split; [reflexivity |]. split; [reflexivity |].
  split; [reflexivity | apply get_pool_administrative].
Qed.

(** With a [ThreadPool] bound while [LZ4_USE_ASYNC_POOL] is set, the pool
    path raises before any [map]. *)
Lemma via_pool_broken (f : transform) (l : list block) (w : world) (id : nat) :
  LZ4_USE_ASYNC_POOL w = true ->
  _compress_thread_pool w = Some (ThreadPool id) ->
  bind _get_compression_pool (fun pool => map_ pool f l) w
  = mkOutcome (Raise AttributeError) w [GetPool].
Proof.
  intros Hflag Hp.
  assert (Hget : _get_compression_pool w = mkOutcome (Raise AttributeError) w [GetPool]).
  { rewrite (get_pool_bound w _ Hp), Hflag. reflexivity. }
  rewrite (bind_Raise _ _ _ AttributeError) by (rewrite Hget; reflexivity).
  rewrite Hget. reflexivity.
Qed.

Lemma through_pool_PoolMap (f : transform) (l : list block) (w : world)
    (o : outcome (list block)) :
  through_pool f l w o -> exists p, PoolMap p f l ∈ events o.
Proof.
  intros (p & _ & _ & _ & Hev & _). exists p. rewrite Hev.
  apply elem_of_app. right. apply list_elem_of_singleton. reflexivity.
Qed.

Lemma decompress_array_path (w : world) (s0 : block) (l : list block) :
  decompress_array (s0 :: l) w
  = if negb (ENABLE_PARALLEL w) || (len (s0 :: l) <=? LZ4_N_PARALLEL w)
    then comprehension lz4_decompress (s0 :: l) w
    else bind _get_compression_pool
           (fun pool => map_ pool lz4_decompress (s0 :: l)) w.
Proof.
  unfold decompress_array. rewrite bind_get.
  destruct (negb (ENABLE_PARALLEL w) || _); reflexivity.
Qed.

Lemma decompress_cond_iff (w : world) (n : Z) :
  negb (ENABLE_PARALLEL w) || (n <=? LZ4_N_PARALLEL w) = false
  <-> ENABLE_PARALLEL w = true /\ LZ4_N_PARALLEL w < n.
Proof.
  rewrite orb_false_iff, negb_false_iff, Z.leb_gt. reflexivity.
Qed.

Lemma compress_array_path (w : world) (s0 : block) (l : list block) (withHC : bool) :
  compress_array (s0 :: l) withHC w
  = if BENCHMARK_MODE w
       || (ENABLE_PARALLEL w && withHC
           || (LZ4_N_PARALLEL w <? len (s0 :: l)) && (LZ4_MINSZ_PARALLEL w <? len s0))
    then bind _get_compression_pool
           (fun pool => map_ pool (if withHC then lz4_compressHC else lz4_compress)
                          (s0 :: l)) w
    else comprehension (if withHC then lz4_compressHC else lz4_compress) (s0 :: l) w.
Proof.
  unfold compress_array. rewrite bind_get.
  destruct (BENCHMARK_MODE w || _); reflexivity.
Qed.

Lemma compress_cond_iff (w : world) (withHC : bool) (n m : Z) :
  BENCHMARK_MODE w
  || (ENABLE_PARALLEL w && withHC
      || (LZ4_N_PARALLEL w <? n) && (LZ4_MINSZ_PARALLEL w <? m)) = true
  <-> BENCHMARK_MODE w = true
      \/ (ENABLE_PARALLEL w = true /\ withHC = true)
      \/ (LZ4_N_PARALLEL w < n /\ LZ4_MINSZ_PARALLEL w < m).
Proof.
  rewrite !orb_true_iff, !andb_true_iff, !Z.ltb_lt. reflexivity.
Qed.

(** X11.  Whenever [compress_array] does not ask for the pool, it leaves the
    state as it was and works on the calling thread: when the codec accepts
    every chunk it calls the transform on each chunk in input order and
    returns the results in that order; when the codec rejects a chunk it
    calls the transform on the chunks before the first rejected one and on
    that one, on no chunk after it, and raises the codec's error. *)
Theorem compress_array_sequential (w : world) (l : list block) (withHC : bool) :
  GetPool ∉ events (compress_array l withHC w) ->
  sequential (if withHC then lz4_compressHC else lz4_compress) l w
    (compress_array l withHC w).
Proof.
  destruct l as [| s0 l].
  - intros _. split; [reflexivity |]. split.
    + intros out Hout. unfold results in Hout. simpl in Hout.
      injection Hout as <-. split; reflexivity.
    + intros l1 s l2 Hl. destruct l1; discriminate Hl.
  - rewrite compress_array_path. destruct (BENCHMARK_MODE w || _).
    + intros Hno. exfalso. apply Hno. apply via_pool_GetPool.
    + intros _. apply sequential_comprehension.
Qed.

(** X12.  In dedicated mode [set_compression_pool_size] checks its argument
    before it touches anything: when [int()] raises on the argument, as
    [TypeError] on [None] and [ValueError] on ['abc'], the call raises that
    exception, and when the integer [int()] returns is below 1 the call
    raises [ValueError]; in both cases the globals and the pools are left as
    they were and nothing is logged. *)
Theorem set_compression_pool_size_refuses (w : world) (pool_size : pyarg) :
  LZ4_USE_ASYNC_POOL w = false ->
  (forall e, res (int pool_size w) = Raise e ->
     set_compression_pool_size pool_size w = mkOutcome (Raise e) w [])
  /\ (forall n, res (int pool_size w) = Ok n -> n < 1 ->
      set_compression_pool_size pool_size w = mkOutcome (Raise ValueError) w []).
Proof.
  intros Hded. unfold set_compression_pool_size. rewrite bind_get, Hded.
  destruct pool_size as [z | | [z | e0]]; unfold int; simpl; split.
  all: try (intros e [= <-]; reflexivity).
  all: try (intros e He; discriminate He).
  all: try (intros n Hn; discriminate Hn).
  all: intros n [= <-] Hlt; rewrite bind_ret; apply Z.ltb_lt in Hlt; rewrite Hlt;
    reflexivity.
Qed.

(** C7.  On a non-empty batch [decompress_array] takes the pool path exactly
    when [ENABLE_PARALLEL] holds and the batch has more than
    [LZ4_N_PARALLEL] chunks; no size enters the condition.  Otherwise it
    decompresses the chunks one after the other in input order on the
    calling thread.  On a usable state the pool path maps the whole batch
    over the pool, once, and returns the decompressed chunks in input order,
    so there the pool is used if and only if the condition holds.  On the
    state that the switch from shared to dedicated mode leaves, a
    [ThreadPool] bound while [LZ4_USE_ASYNC_POOL] is set, the pool path
    raises [AttributeError] and maps nothing. *)
Theorem decompress_array_dispatch (w : world) (s0 : block) (l : list block) :
  (~ (ENABLE_PARALLEL w = true /\ LZ4_N_PARALLEL w < len (s0 :: l)) ->
   sequential lz4_decompress (s0 :: l) w (decompress_array (s0 :: l) w))
  /\ (ENABLE_PARALLEL w = true /\ LZ4_N_PARALLEL w < len (s0 :: l) ->
      usable w = true ->
      through_pool lz4_decompress (s0 :: l) w (decompress_array (s0 :: l) w))
  /\ (usable w = true ->
      ((exists p, PoolMap p lz4_decompress (s0 :: l)
                    ∈ events (decompress_array (s0 :: l) w))
       <-> ENABLE_PARALLEL w = true /\ LZ4_N_PARALLEL w < len (s0 :: l)))
  /\ (GetPool ∈ events (decompress_array (s0 :: l) w)
      <-> ENABLE_PARALLEL w = true /\ LZ4_N_PARALLEL w < len (s0 :: l))
  /\ (ENABLE_PARALLEL w = true /\ LZ4_N_PARALLEL w < len (s0 :: l) ->
      LZ4_USE_ASYNC_POOL w = true ->
      forall id, _compress_thread_pool w = Some (ThreadPool id) ->
      decompress_array (s0 :: l) w = mkOutcome (Raise AttributeError) w [GetPool]).
Proof.
  pose proof (decompress_cond_iff w (len (s0 :: l))) as Hcond.
  split; [| split; [| split; [| split]]].
  - intros Hseq. rewrite decompress_array_path.
    destruct (negb (ENABLE_PARALLEL w) || _).
    + apply sequential_comprehension.
    + exfalso. apply Hseq, Hcond. reflexivity.
  - intros Hpar Hu. rewrite decompress_array_path.
    apply Hcond in Hpar. rewrite Hpar. apply through_pool_usable, Hu.
  - intros Hu. rewrite decompress_array_path.
    destruct (negb (ENABLE_PARALLEL w) || _) eqn:Hb.
    + split.
      * intros [p Hp]. exfalso. exact (comprehension_no_PoolMap _ _ _ _ _ _ Hp).
      * intros Hpar. apply Hcond in Hpar. discriminate Hpar.
    + split; [intros _; apply Hcond; reflexivity |].
      intros _. eapply through_pool_PoolMap. apply through_pool_usable, Hu.
  - apply decompress_array_pool_iff.
  - intros Hpar Hflag id Hp. rewrite decompress_array_path.
    apply Hcond in Hpar. rewrite Hpar. apply (via_pool_broken _ _ w id Hflag Hp).
Qed.

(** C2, as the code has it.  On a usable state and a non-empty batch,
    [compress_array] maps the whole batch over the pool, once, exactly when
    [BENCHMARK_MODE] holds, or [ENABLE_PARALLEL] and [withHC] both hold, or
    the batch has more than [LZ4_N_PARALLEL] chunks and its first chunk more
    than [LZ4_MINSZ_PARALLEL] bytes, and otherwise compresses the chunks one
    after the other on the calling thread.  With [BENCHMARK_MODE] off, as
    the module binds it, that is the condition of the claim.  So with
    [ENABLE_PARALLEL] and [withHC] a single chunk of any size goes through
    the pool; with [LZ4_N_PARALLEL = 16] a batch of 17 chunks whose first is
    large enough goes through the pool, and a batch of 15 chunks is
    compressed on the calling thread unless one of the first two conditions
    holds; and chunks other than the first do not enter the decision. *)
Theorem compress_array_dispatch (w : world) (s0 : block) (l : list block) (withHC : bool) :
  usable w = true ->
  (BENCHMARK_MODE w = true
   \/ (ENABLE_PARALLEL w = true /\ withHC = true)
   \/ (LZ4_N_PARALLEL w < len (s0 :: l) /\ LZ4_MINSZ_PARALLEL w < len s0) ->
   through_pool (if withHC then lz4_compressHC else lz4_compress) (s0 :: l) w
     (compress_array (s0 :: l) withHC w))
  /\ (~ (BENCHMARK_MODE w = true
         \/ (ENABLE_PARALLEL w = true /\ withHC = true)
         \/ (LZ4_N_PARALLEL w < len (s0 :: l) /\ LZ4_MINSZ_PARALLEL w < len s0)) ->
      sequential (if withHC then lz4_compressHC else lz4_compress) (s0 :: l) w
        (compress_array (s0 :: l) withHC w))
  /\ ((exists p, PoolMap p (if withHC then lz4_compressHC else lz4_compress) (s0 :: l)
                   ∈ events (compress_array (s0 :: l) withHC w))
      <-> BENCHMARK_MODE w = true
          \/ (ENABLE_PARALLEL w = true /\ withHC = true)
          \/ (LZ4_N_PARALLEL w < len (s0 :: l) /\ LZ4_MINSZ_PARALLEL w < len s0))
  /\ (BENCHMARK_MODE w = false ->
      ((exists p, PoolMap p (if withHC then lz4_compressHC else lz4_compress) (s0 :: l)
                    ∈ events (compress_array (s0 :: l) withHC w))
       <-> (ENABLE_PARALLEL w = true /\ withHC = true)
           \/ (LZ4_N_PARALLEL w < len (s0 :: l) /\ LZ4_MINSZ_PARALLEL w < len s0)))
  /\ (ENABLE_PARALLEL w = true ->
      through_pool lz4_compressHC [s0] w (compress_array [s0] true w))
  /\ (LZ4_N_PARALLEL w = 16 -> length (s0 :: l) = 17%nat ->
      LZ4_MINSZ_PARALLEL w < len s0 ->
      through_pool (if withHC then lz4_compressHC else lz4_compress) (s0 :: l) w
        (compress_array (s0 :: l) withHC w))
  /\ (LZ4_N_PARALLEL w = 16 -> length (s0 :: l) = 15%nat ->
      BENCHMARK_MODE w = false -> ENABLE_PARALLEL w && withHC = false ->
      sequential (if withHC then lz4_compressHC else lz4_compress) (s0 :: l) w
        (compress_array (s0 :: l) withHC w))
  /\ (forall l', length l' = length l ->
      ((exists p, PoolMap p (if withHC then lz4_compressHC else lz4_compress) (s0 :: l')
                    ∈ events (compress_array (s0 :: l') withHC w))
       <-> (exists p, PoolMap p (if withHC then lz4_compressHC else lz4_compress) (s0 :: l)
                        ∈ events (compress_array (s0 :: l) withHC w)))).
Proof.
  intros Hu.
  assert (Hpool : forall (hc : bool) (b : block) (k : list block),
            BENCHMARK_MODE w = true
            \/ (ENABLE_PARALLEL w = true /\ hc = true)
            \/ (LZ4_N_PARALLEL w < len (b :: k) /\ LZ4_MINSZ_PARALLEL w < len b) ->
            through_pool (if hc then lz4_compressHC else lz4_compress) (b :: k) w
              (compress_array (b :: k) hc w)).
  { intros hc b k Hc. rewrite compress_array_path.
    apply compress_cond_iff in Hc. rewrite Hc. apply through_pool_usable, Hu. }
  assert (Hseq : forall (hc : bool) (b : block) (k : list block),
            ~ (BENCHMARK_MODE w = true
               \/ (ENABLE_PARALLEL w = true /\ hc = true)
               \/ (LZ4_N_PARALLEL w < len (b :: k) /\ LZ4_MINSZ_PARALLEL w < len b)) ->
            compress_array (b :: k) hc w
            = comprehension (if hc then lz4_compressHC else lz4_compress) (b :: k) w).
  { intros hc b k Hc. rewrite compress_array_path.
    destruct (BENCHMARK_MODE w || _) eqn:Hb; [| reflexivity].
    exfalso. apply Hc, compress_cond_iff, Hb. }
  assert (Hiff : forall (hc : bool) (b : block) (k : list block),
            (exists p, PoolMap p (if hc then lz4_compressHC else lz4_compress) (b :: k)
                         ∈ events (compress_array (b :: k) hc w))
            <-> BENCHMARK_MODE w = true
                \/ (ENABLE_PARALLEL w = true /\ hc = true)
                \/ (LZ4_N_PARALLEL w < len (b :: k) /\ LZ4_MINSZ_PARALLEL w < len b)).
  { intros hc b k. split.
    - intros [p Hp].
      destruct (BENCHMARK_MODE w
                || (ENABLE_PARALLEL w && hc
                    || (LZ4_N_PARALLEL w <? len (b :: k))
                       && (LZ4_MINSZ_PARALLEL w <? len b))) eqn:Hb;
        [apply compress_cond_iff, Hb |].
      exfalso. rewrite Hseq in Hp.
      + exact (comprehension_no_PoolMap _ _ _ _ _ _ Hp).
      + intros Hc. apply compress_cond_iff in Hc. congruence.
    - intros Hc. eapply through_pool_PoolMap. apply Hpool, Hc. }
  split; [apply Hpool |].
  split; [intros Hc; rewrite (Hseq _ _ _ Hc); apply sequential_comprehension |].
  split; [apply Hiff |].
  split.
  { intros Hb. rewrite Hiff, Hb.
    split; [intros [Hf | H]; [discriminate Hf | exact H] | intros H; right; exact H]. }
  split.
  { intros Hp. apply (Hpool true s0 []). right. left. split; [exact Hp | reflexivity]. }
  split.
  { intros Hn Hlen Hm. apply Hpool. right. right.
    split; [| exact Hm]. unfold len. rewrite Hn, Hlen. lia. }
  split.
  { intros Hn Hlen Hb Hp. rewrite Hseq; [apply sequential_comprehension |].
    intros [Hb' | [[Hp1 Hp2] | [Hn1 _]]].
    - congruence.
    - rewrite Hp1, Hp2 in Hp. discriminate Hp.
    - unfold len in Hn1. rewrite Hn, Hlen in Hn1. lia. }
  intros l' Hlen. rewrite !Hiff.
  rewrite (len_cons_length s0 l l' Hlen). reflexivity.
Qed.

End Healthy.

(** *** The properties on concrete inputs *)

Lemma marker_codec_round_trips : round_trips Samples.marker_codec.
Proof. intros s y [[= <-] | [= <-]]; reflexivity. Qed.

(** X3 from the state the module starts in, over a resize, a batch, both
    switches of mode and another batch. *)
Lemma calls_keep_healthy_witness :
  healthy Samples.default_world = true
  /\ healthy (@after_all Samples.marker_codec
                [call_set_compression_pool_size (PyInt 4);
                 call_compress_array [Samples.tiny_block] true;
                 call_set_use_async_pool true;
                 call_set_use_async_pool false;
                 call_decompress_array [Samples.tiny_block]]
                Samples.default_world) = true.
Proof.
  split; [reflexivity |].
  exact (@calls_keep_healthy Samples.marker_codec _ Samples.default_world eq_refl).
Defined.

(** X4 at the state the module starts in. *)
Lemma get_compression_pool_again_witness :
  res (_get_compression_pool Samples.default_world) = Ok (ThreadPool 0)
  /\ _get_compression_pool (final (_get_compression_pool Samples.default_world))
     = mkOutcome (Ok (ThreadPool 0)) (final (_get_compression_pool Samples.default_world))
         [GetPool].
Proof.
  split; [reflexivity |].
  exact (get_compression_pool_again Samples.default_world (ThreadPool 0) eq_refl).
Defined.

(** X6 at two small chunks compressed with high compression through the
    pool. *)
Lemma compress_array_in_order_witness :
  res (@compress_array Samples.marker_codec [Samples.tiny_block; [Byte.x62]] true
         Samples.default_world)
  = Ok [[Byte.x02; Byte.x61]; [Byte.x02; Byte.x62]]
  /\ length [[Byte.x02; Byte.x61]; [Byte.x02; Byte.x62]]
     = length [Samples.tiny_block; [Byte.x62]]
  /\ forall (i : nat) (s : block),
       [Samples.tiny_block; [Byte.x62]] !! i = Some s ->
       exists y, [[Byte.x02; Byte.x61]; [Byte.x02; Byte.x62]] !! i = Some y
                 /\ @run Samples.marker_codec lz4_compressHC s = Some y.
Proof.
  split; [reflexivity |].
  exact (@compress_array_in_order Samples.marker_codec Samples.default_world
           [Samples.tiny_block; [Byte.x62]]
           [[Byte.x02; Byte.x61]; [Byte.x02; Byte.x62]] true eq_refl).
Defined.

(** X7 at two chunks decompressed on the calling thread. *)
Lemma decompress_array_in_order_witness :
  res (@decompress_array Samples.marker_codec [[Byte.x01; Byte.x61]; [Byte.x02; Byte.x62]]
         Samples.default_world)
  = Ok [Samples.tiny_block; [Byte.x62]]
  /\ length [Samples.tiny_block; [Byte.x62]]
     = length [[Byte.x01; Byte.x61]; [Byte.x02; Byte.x62]]
  /\ forall (i : nat) (s : block),
       [[Byte.x01; Byte.x61]; [Byte.x02; Byte.x62]] !! i = Some s ->
       exists y, [Samples.tiny_block; [Byte.x62]] !! i = Some y
                 /\ @run Samples.marker_codec lz4_decompress s = Some y.
Proof.
  split; [reflexivity |].
  exact (@decompress_array_in_order Samples.marker_codec Samples.default_world
           [[Byte.x01; Byte.x61]; [Byte.x02; Byte.x62]]
           [Samples.tiny_block; [Byte.x62]] eq_refl).
Defined.

(** X8 at the shared mode of the default globals. *)
Lemma batch_result_on_usable_state_witness :
  usable Samples.shared_world = true
  /\ res (@compress_array Samples.marker_codec [Samples.tiny_block] true Samples.shared_world)
     = @results Samples.marker_codec lz4_compressHC [Samples.tiny_block]
  /\ res (@decompress_array Samples.marker_codec [Samples.tiny_block] Samples.shared_world)
     = @results Samples.marker_codec lz4_decompress [Samples.tiny_block].
Proof.
  split; [reflexivity |].
  exact (@batch_result_on_usable_state Samples.marker_codec Samples.shared_world
           [Samples.tiny_block] true eq_refl).
Defined.

(** X9 at two chunks compressed on the default globals and decompressed in
    shared mode. *)
Lemma round_trip_witness :
  round_trips Samples.marker_codec
  /\ res (@compress_array Samples.marker_codec [Samples.tiny_block; []] false
            Samples.default_world)
     = Ok [[Byte.x01; Byte.x61]; [Byte.x01]]
  /\ (forall back,
       res (@decompress_array Samples.marker_codec [[Byte.x01; Byte.x61]; [Byte.x01]]
              Samples.shared_world) = Ok back ->
       back = [Samples.tiny_block; []])
  /\ (usable Samples.shared_world = true ->
      res (@decompress_array Samples.marker_codec [[Byte.x01; Byte.x61]; [Byte.x01]]
             Samples.shared_world) = Ok [Samples.tiny_block; []]).
Proof.
  split; [exact marker_codec_round_trips |].
  split; [reflexivity |].
  exact (@round_trip Samples.marker_codec Samples.default_world Samples.shared_world
           [Samples.tiny_block; []] [[Byte.x01; Byte.x61]; [Byte.x01]] false
           marker_codec_round_trips eq_refl).
Defined.

(** X10 from the state the module starts in, over a resize, a batch and the
    switch to shared mode. *)
Lemma calls_keep_usable_witness :
  usable Samples.default_world = true
  /\ usable (@after_all Samples.marker_codec
               [call_set_compression_pool_size (PyInt 4);
                call_compress_array [Samples.tiny_block] true;
                call_set_use_async_pool true]
               Samples.default_world) = true.
Proof.
  split; [reflexivity |].
  apply (@calls_keep_usable Samples.marker_codec
           [call_set_compression_pool_size (PyInt 4);
            call_compress_array [Samples.tiny_block] true;
            call_set_use_async_pool true]
           Samples.default_world eq_refl).
  repeat constructor; discriminate.
Defined.

(** X11 at two small chunks without high compression on the default
    globals. *)
Lemma compress_array_sequential_witness :
  (GetPool ∉ events (@compress_array Samples.marker_codec
                       [Samples.tiny_block; [Byte.x62]] false Samples.default_world))
  /\ @sequential Samples.marker_codec lz4_compress [Samples.tiny_block; [Byte.x62]]
       Samples.default_world
       (@compress_array Samples.marker_codec [Samples.tiny_block; [Byte.x62]] false
          Samples.default_world).
Proof.
  assert (Hno : GetPool ∉ events (@compress_array Samples.marker_codec
                                    [Samples.tiny_block; [Byte.x62]] false
                                    Samples.default_world)).
  { intros Hin. apply elem_of_cons in Hin as [Hin | Hin]; [discriminate Hin |].
    apply list_elem_of_singleton in Hin. discriminate Hin. }
  split; [exact Hno |].
  exact (@compress_array_sequential Samples.marker_codec Samples.default_world
           [Samples.tiny_block; [Byte.x62]] false Hno).
Defined.

(** X12 on a dedicated pool: an argument on which [int()] raises
    [ValueError], as ['abc'], and an argument that [int()] turns into 0, as
    ['0']. *)
Lemma set_compression_pool_size_refuses_witness :
  LZ4_USE_ASYNC_POOL Samples.dedicated_world = false
  /\ set_compression_pool_size (PyObject (Raise ValueError)) Samples.dedicated_world
     = mkOutcome (Raise ValueError) Samples.dedicated_world []
  /\ set_compression_pool_size (PyObject (Ok 0)) Samples.dedicated_world
     = mkOutcome (Raise ValueError) Samples.dedicated_world [].
Proof.
  assert (Hn : 0 < 1) by lia.
  split; [reflexivity |]. split.
  - exact (proj1 (set_compression_pool_size_refuses Samples.dedicated_world
                    (PyObject (Raise ValueError)) eq_refl) ValueError eq_refl).
  - exact (proj2 (set_compression_pool_size_refuses Samples.dedicated_world
                    (PyObject (Ok 0)) eq_refl) 0 eq_refl Hn).
Defined.

(** The state both switches of mode leave. *)
Example switched_world_reached :
  final (set_use_async_pool false
           (final (set_use_async_pool true Samples.default_world)))
  = Samples.switched_world.
Proof. reflexivity. Qed.

(** C7 at 17 chunks after [set_use_async_pool(True)] and
    [set_use_async_pool(False)]: the call raises and maps nothing. *)
Lemma decompress_array_dispatch_witness :
  @decompress_array Samples.marker_codec
    ([Byte.x01; Byte.x61] :: replicate 16 [Byte.x01; Byte.x61]) Samples.switched_world
  = mkOutcome (Raise AttributeError) Samples.switched_world [GetPool].
Proof.
  assert (Hcond : ENABLE_PARALLEL Samples.switched_world = true
                  /\ LZ4_N_PARALLEL Samples.switched_world
                     < len ([Byte.x01; Byte.x61] :: replicate 16 [Byte.x01; Byte.x61])).
  { split; reflexivity. }
  destruct (@decompress_array_dispatch Samples.marker_codec Samples.switched_world
              [Byte.x01; Byte.x61] (replicate 16 [Byte.x01; Byte.x61]))
    as (_ & _ & _ & _ & Hbroken).
  exact (Hbroken Hcond eq_refl 0%nat eq_refl).
Defined.

(** The same batch on the state the module starts in is mapped over a pool
    created on the spot. *)
Example decompress_array_through_pool :
  @through_pool Samples.marker_codec lz4_decompress
    ([Byte.x01; Byte.x61] :: replicate 16 [Byte.x01; Byte.x61]) Samples.default_world
    (@decompress_array Samples.marker_codec
       ([Byte.x01; Byte.x61] :: replicate 16 [Byte.x01; Byte.x61]) Samples.default_world).
Proof.
  exists (ThreadPool 0). repeat split. repeat constructor.
Qed.

(** C2 at two small chunks with high compression on the default globals:
    the batch is mapped over a pool created on the spot. *)
Lemma compress_array_dispatch_witness :
  usable Samples.default_world = true
  /\ @through_pool Samples.marker_codec lz4_compressHC [Samples.tiny_block; [Byte.x62]]
       Samples.default_world
       (@compress_array Samples.marker_codec [Samples.tiny_block; [Byte.x62]] true
          Samples.default_world).
Proof.
  split; [reflexivity |].
  destruct (@compress_array_dispatch Samples.marker_codec Samples.default_world
              Samples.tiny_block [[Byte.x62]] true eq_refl) as (Hpool & _).
  apply Hpool. right. left. split; reflexivity.
Defined.

(** X13 at a dedicated pool of two workers. *)
Lemma set_use_async_pool_installs_shared_witness :
  healthy Samples.dedicated_world = true
  /\ res (set_use_async_pool true Samples.dedicated_world) = Ok tt
  /\ events (set_use_async_pool true Samples.dedicated_world)
     = [Log info_using_common_async_pool]
  /\ LZ4_USE_ASYNC_POOL (final (set_use_async_pool true Samples.dedicated_world)) = true
  /\ _compress_thread_pool (final (set_use_async_pool true Samples.dedicated_world))
     = Some ASYNC_ARCTIC
  /\ (forall id, _compress_thread_pool Samples.dedicated_world = Some (ThreadPool id) ->
      exists tp, heap (final (set_use_async_pool true Samples.dedicated_world)) !! id
                 = Some tp
                 /\ running tp = false /\ joined tp = true)
  /\ _get_compression_pool (final (set_use_async_pool true Samples.dedicated_world))
     = mkOutcome (Ok ASYNC_ARCTIC_workers_pool)
         (final (set_use_async_pool true Samples.dedicated_world)) [GetPool].
Proof.
  split; [reflexivity |].
  exact (set_use_async_pool_installs_shared Samples.dedicated_world eq_refl eq_refl).
Defined.

End CompressionMore.

(** ** More on the requests of arctic/async/async_utils.py *)

Module AsyncUtilsMore.

Import AsyncUtils.

Section Facts.

Context {pyobject : Type}.
Implicit Types r : AsyncRequest pyobject.

(** X15.  A request fresh from [AsyncRequest(...)] carries the identifier
    and the creation time it was given, has no future, no result and no
    exception, is not completed, follows the life cycle, and reads -1 on
    each of the three timing accessors. *)
Theorem fresh_request (uuid4 : N) (now : Q) (kind : AsyncRequestType)
    (library fn : pyobject) (args : list pyobject) (kwargs : gmap string pyobject) :
  id (__init__ uuid4 now kind library fn args kwargs) = uuid4
  /\ create_time (__init__ uuid4 now kind library fn args kwargs) = now
  /\ future (__init__ uuid4 now kind library fn args kwargs) = None
  /\ data (__init__ uuid4 now kind library fn args kwargs) = None
  /\ exception (__init__ uuid4 now kind library fn args kwargs) = None
  /\ is_completed (__init__ uuid4 now kind library fn args kwargs) = false
  /\ lifecycle_ok (__init__ uuid4 now kind library fn args kwargs)
  /\ execution_duration (__init__ uuid4 now kind library fn args kwargs) = Ok (-1)%Q
  /\ schedule_delay (__init__ uuid4 now kind library fn args kwargs) = Ok (-1)%Q
  /\ total_time (__init__ uuid4 now kind library fn args kwargs) = Ok (-1)%Q.
Proof. repeat split. Qed.

(** X16.  The [symbol] of a new request is the keyword argument named
    [symbol]: it is unset when no such keyword is passed, it is the value
    passed under that name, and keywords of other names do not affect it.
    The keywords themselves are stored unchanged. *)
Theorem symbol_of_kwargs (uuid4 : N) (now : Q) (kind : AsyncRequestType)
    (library fn : pyobject) (args : list pyobject) (kwargs : gmap string pyobject) :
  (kwargs !! "symbol"%string = None ->
   symbol (__init__ uuid4 now kind library fn args kwargs) = None)
  /\ (forall v : pyobject,
       symbol (__init__ uuid4 now kind library fn args (<["symbol"%string := v]> kwargs))
       = Some v)
  /\ (forall (k : string) (v : pyobject),
       k <> "symbol"%string ->
       symbol (__init__ uuid4 now kind library fn args (<[k := v]> kwargs))
       = symbol (__init__ uuid4 now kind library fn args kwargs))
  /\ AsyncUtils.kwargs (__init__ uuid4 now kind library fn args kwargs) = kwargs.
Proof.
  unfold __init__; simpl. repeat split.
  - intros H. exact H.
  - intros v. apply lookup_insert_eq.
  - intros k v Hk. apply lookup_insert_ne. exact Hk.
Qed.

(** X18.  On a request that follows the life cycle no timing accessor
    raises, and each returns either the sentinel -1 or a duration that is
    not negative. *)
Theorem accessors_on_lifecycle r :
  lifecycle_ok r ->
  (exists d, execution_duration r = Ok d /\ (d = (-1)%Q \/ (0 <= d)%Q))
  /\ (exists d, schedule_delay r = Ok d /\ (d = (-1)%Q \/ (0 <= d)%Q))
  /\ (exists d, total_time r = Ok d /\ (d = (-1)%Q \/ (0 <= d)%Q)).
Proof.
  unfold lifecycle_ok, execution_duration, schedule_delay, total_time, sub_opt.
  intros Hlife.
  destruct (start_time r) as [s |], (end_time r) as [e |]; try contradiction.
  - destruct Hlife as [Hc Hs].
    repeat split; eexists; (split; [reflexivity |]); right; lra.
  - repeat split; eexists; (split; [reflexivity |]);
      first [left; reflexivity | right; lra].
  - repeat split; eexists; (split; [reflexivity |]); left; reflexivity.
Qed.

End Facts.

Lemma completed_request_lifecycle : lifecycle_ok Samples.completed_request.
Proof. unfold lifecycle_ok; simpl. split; unfold Qle; simpl; lia. Qed.

(** X18 at a request started at 101 and ended at 105. *)
Lemma accessors_on_lifecycle_witness :
  lifecycle_ok Samples.completed_request
  /\ exists d, execution_duration Samples.completed_request = Ok d
               /\ (d = (-1)%Q \/ (0 <= d)%Q).
Proof.
  split; [exact completed_request_lifecycle |].
  apply (accessors_on_lifecycle Samples.completed_request completed_request_lifecycle).
Defined.

End AsyncUtilsMore.
